(** * julia_init.c: bootstrap shim of an embedded Julia runtime

    A shallow embedding of [src/julia_init.c]: the five C functions
    [setup_args], [get_sysimage_path], [set_depot_path], [init_julia] and
    [shutdown_julia] become computations in a small state-and-exit monad over
    an explicit process state (static storage, the call stack, [environ],
    [jl_options.image_file] and the trace of calls into the runtime).

    What the file does not define (libc's [dirname], [snprintf], [putenv];
    libuv's and Julia's entry points) is modelled next to its use:
    - [dirname] after POSIX, which lets an implementation cut the argument in
      place (glibc, musl) or answer from a buffer of its own (macOS);
    - [putenv] after POSIX: the pointer itself becomes part of the
      environment, nothing is copied;
    - the runtime's functions as events of the trace, the ones whose answer
      the shim uses through an oracle record. *)

From Stdlib Require Import ZArith Ascii String.
From stdpp Require Import base option list gmap.

Local Open Scope string_scope.
Local Arguments String.append !_ _ : simpl nomatch.

(** ** C strings *)

Module CStr.

Definition is_slash (c : ascii) : bool := Ascii.eqb c "/".

Fixpoint drop_slashes (l : list ascii) : list ascii :=
  match l with
  | c :: l' => if is_slash c then drop_slashes l' else l
  | [] => []
  end.

Fixpoint drop_component (l : list ascii) : list ascii :=
  match l with
  | c :: l' => if is_slash c then l else drop_component l'
  | [] => []
  end.

(** What a run of [n] slashes at the start of a path stands for: exactly
    two are kept (XBD 4.13), any other number is the root. *)
Definition leading_root (n : nat) : list ascii :=
  if Nat.eqb n 2 then ["/"; "/"]%char else ["/"]%char.

(** The directory part of a path, on the reversed path: trailing slashes
    go, then the last component, then the slashes before it.  [None] when
    the path has no directory part (the answer is then the constant
    string "."). *)
Definition dirname_rev (r : list ascii) : option (list ascii) :=
  match drop_slashes r with
  | [] => match r with
          | [] => None
          | _ => Some (leading_root (length r))
          end
  | r1 =>
      match drop_component r1 with
      | [] => None
      | r2 =>
          match drop_slashes r2 with
          | [] => Some (leading_root (length r2))
          | r3 => Some (rev r3)
          end
      end
  end.

Definition dirname_cut (s : string) : option string :=
  string_of_list_ascii <$> dirname_rev (rev (list_ascii_of_string s)).

(** The string [dirname] answers for the string [s]. *)
Definition dirname_string (s : string) : string :=
  default "." (dirname_cut s).

(** [snprintf(buf, size, ...)] keeps at most [size - 1] characters. *)
Fixpoint truncate (n : nat) (s : string) : string :=
  match n, s with
  | S n', String c s' => String c (truncate n' s')
  | _, _ => ""
  end.

Fixpoint drop (n : nat) (s : string) : string :=
  match n, s with
  | S n', String _ s' => drop n' s'
  | _, _ => s
  end.

(** [strncmp(s, a, strlen(a)) == 0]. *)
Fixpoint starts_with (a s : string) : bool :=
  match a, s with
  | "", _ => true
  | String x a', String y s' => Ascii.eqb x y && starts_with a' s'
  | _, _ => false
  end.

(** The characters before the first '=', if there is one. *)
Fixpoint name_end (s : string) : option string :=
  match s with
  | "" => None
  | String c s' =>
      if Ascii.eqb c "=" then Some ""
      else String c <$> name_end s'
  end.

Fixpoint has_slash (s : string) : bool :=
  match s with
  | "" => false
  | String c s' => is_slash c || has_slash s'
  end.

Definition ends_with_slash (s : string) : bool :=
  match rev (list_ascii_of_string s) with
  | c :: _ => is_slash c
  | [] => false
  end.

End CStr.

(** ** The process state *)

(** A pointer.  String literals are addressed by their text: they are
    read-only and live for the whole run.  [DirnameBuf] is the buffer a
    [dirname] that does not cut its argument answers from.  [Static i] is
    storage that lives for the whole run (the loader's link map, the host's
    argument vector); [Stack i] is the [i]-th slot of the call stack.  A C
    pointer that may be NULL is an [option ptr]. *)
Inductive ptr :=
| Lit (s : string)
| DirnameBuf
| Static (i : nat)
| Stack (i : nat).

Global Instance ptr_eq_dec : EqDecision ptr.
Proof. solve_decision. Defined.

(** What a slot of storage holds. *)
Inductive cell :=
| CStr (s : string)                 (* char[]: a NUL-terminated string *)
| CInt (n : Z)                      (* int *)
| CArgvPtr (a : ptr) (off : nat)    (* char **: element [off] of the array at [a] *)
| CArgv (args : list string).       (* char *[]: an argument vector *)

(** [JL_IMAGE_SEARCH] and the [dlopen] flag of julia.h, by name. *)
Inductive JL_IMAGE_SEARCH := JL_IMAGE_CWD | JL_IMAGE_JULIA_HOME.
Inductive rtld_flags := JL_RTLD_DEFAULT.

(** Calls that leave the shim, in program order. *)
Inductive event :=
| Ev_uv_setup_args (argc : Z) (argv : ptr) (off : nat)
| Ev_libsupport_init
| Ev_jl_parse_opts (argcp argvp : ptr)
| Ev_jl_error (msg : string)
| Ev_jl_load_dynamic_library (name : string) (flags : rtld_flags) (throw_err : Z)
| Ev_jl_pathname_for_handle (handle : Z)
| Ev_julia_init (rel : JL_IMAGE_SEARCH) (image_file : option ptr) (image : option string)
| Ev_jl_atexit_hook (status : Z).

Record world := World {
  statics : list cell;        (* static storage, by index *)
  stack : gmap nat cell;      (* the bytes of the call stack, live or not *)
  sp : nat;                   (* slots below [sp] belong to a live frame *)
  dirname_buf : string;       (* the contents of [DirnameBuf] *)
  environ : list ptr;         (* char **environ *)
  image_file : option ptr;    (* jl_options.image_file *)
  trace : list event;
}.

Definition with_statics (x : list cell) (w : world) : world :=
  World x (stack w) (sp w) (dirname_buf w) (environ w) (image_file w) (trace w).
Definition with_stack (x : gmap nat cell) (w : world) : world :=
  World (statics w) x (sp w) (dirname_buf w) (environ w) (image_file w) (trace w).
Definition with_sp (x : nat) (w : world) : world :=
  World (statics w) (stack w) x (dirname_buf w) (environ w) (image_file w) (trace w).
Definition with_dirname_buf (x : string) (w : world) : world :=
  World (statics w) (stack w) (sp w) x (environ w) (image_file w) (trace w).
Definition with_environ (x : list ptr) (w : world) : world :=
  World (statics w) (stack w) (sp w) (dirname_buf w) x (image_file w) (trace w).
Definition with_image_file (x : option ptr) (w : world) : world :=
  World (statics w) (stack w) (sp w) (dirname_buf w) (environ w) x (trace w).
Definition with_trace (x : list event) (w : world) : world :=
  World (statics w) (stack w) (sp w) (dirname_buf w) (environ w) (image_file w) x.

(** Reading storage looks at the bytes that are there: a stack slot keeps
    what was last written to it after its frame is gone, until a later frame
    writes it again. *)
Definition load (w : world) (p : ptr) : option cell :=
  match p with
  | Lit s => Some (CStr s)
  | DirnameBuf => Some (CStr (dirname_buf w))
  | Static i => statics w !! i
  | Stack i => stack w !! i
  end.

Definition load_str (w : world) (p : ptr) : option string :=
  match load w p with
  | Some (CStr s) => Some s
  | _ => None
  end.

(** Writing: a literal is read-only, a static slot must exist. *)
Definition store (p : ptr) (c : cell) (w : world) : option world :=
  match p with
  | Lit _ => None
  | DirnameBuf =>
      match c with
      | CStr s => Some (with_dirname_buf s w)
      | _ => None
      end
  | Static i =>
      if decide (i < length (statics w))
      then Some (with_statics (<[i:=c]> (statics w)) w)
      else None
  | Stack i => Some (with_stack (<[i:=c]> (stack w)) w)
  end.

(** Storage whose lifetime has not ended. *)
Definition live (w : world) (p : ptr) : bool :=
  match p with
  | Stack i => bool_decide (i < sp w)
  | _ => true
  end.

(** Every string the environment points to is in storage that is alive. *)
Definition env_storage_live (w : world) : bool :=
  forallb (live w) (environ w).

(** ** The monad: state, [exit], and undefined behaviour *)

Inductive outcome (A : Type) :=
| Ret (a : A)          (* the call returned *)
| Exit (status : Z)    (* the process ended in [exit(status)] *)
| Fault.               (* a read or write C leaves undefined *)
Arguments Ret {A} a.
Arguments Exit {A} status.
Arguments Fault {A}.

Definition M (A : Type) : Type := world -> outcome A * world.

Global Instance M_ret : MRet M := λ A a w, (Ret a, w).
Global Instance M_bind : MBind M := λ A B f m w,
  match m w with
  | (Ret a, w') => f a w'
  | (Exit n, w') => (Exit n, w')
  | (Fault, w') => (Fault, w')
  end.

Definition exit {A} (status : Z) : M A := λ w, (Exit status, w).
Definition fault {A} : M A := λ w, (Fault, w).
Definition emit (e : event) : M unit :=
  λ w, (Ret (), with_trace (trace w ++ [e]) w).

Definition read (p : ptr) : M cell :=
  λ w, match load w p with
       | Some c => (Ret c, w)
       | None => (Fault, w)
       end.
Definition read_str (p : ptr) : M string :=
  c ← read p; match c with CStr s => mret s | _ => fault end.
Definition read_int (p : ptr) : M Z :=
  c ← read p; match c with CInt n => mret n | _ => fault end.
Definition read_argv_ptr (p : ptr) : M (ptr * nat) :=
  c ← read p; match c with CArgvPtr a off => mret (a, off) | _ => fault end.
Definition read_argv (p : ptr) : M (list string) :=
  c ← read p; match c with CArgv args => mret args | _ => fault end.
Definition write (p : ptr) (c : cell) : M unit :=
  λ w, match store p c w with
       | Some w' => (Ret (), w')
       | None => (Fault, w)
       end.

Definition get_world : M world := λ w, (Ret w, w).
Definition set_environ (env : list ptr) : M unit :=
  λ w, (Ret (), with_environ env w).
Definition set_image_file (p : option ptr) : M unit :=
  λ w, (Ret (), with_image_file p w).

(** An automatic object: the next stack slot, with whatever bytes it holds. *)
Definition alloca : M ptr :=
  λ w, (Ret (Stack (sp w)), with_sp (S (sp w)) w).
(** A parameter: an automatic object initialised with the argument. *)
Definition parameter (c : cell) : M ptr :=
  p ← alloca; write p c;; mret p.
(** A function body: its automatic objects end when it returns. *)
Definition call_frame {A} (body : M A) : M A :=
  λ w, match body w with
       | (Ret a, w') => (Ret a, with_sp (sp w) w')
       | r => r
       end.

(** ** What the build and the platform supply *)

(** limits.h and libgen.h: the constant, and which of the two behaviours
    POSIX allows [dirname] has. *)
Record platform := Platform {
  PATH_MAX : nat;
  dirname_in_place : bool;   (* does [dirname] cut its argument in place? *)
}.

(** The build-time macro and the answers of the runtime's functions. *)
Record runtime := Runtime {
  JULIAC_PROGRAM_LIBNAME : option string;       (* [None] is NULL *)
  parse_opts : Z -> nat -> list string -> Z * nat * list string;
  load_dynamic_library : string -> rtld_flags -> Z -> Z;
  pathname_for_handle : Z -> option ptr;        (* [None] is NULL *)
}.

(** ** libc *)

(** Does the environment entry [e] define the variable [name]? *)
Definition entry_named (w : world) (name : string) (e : ptr) : bool :=
  match load_str w e with
  | Some s => CStr.starts_with (name ++ "=") s
  | None => false
  end.

(** [getenv]: the value of the first entry that defines [name]. *)
Definition getenv (w : world) (name : string) : option string :=
  e ← List.find (entry_named w name) (environ w);
  s ← load_str w e;
  Some (CStr.drop (String.length name + 1) s).

Section Shim.

Variable P : platform.
Variable R : runtime.

(** [dirname(path)].  In place: the argument is cut where its directory
    part ends and returned; without a directory part, or for NULL, the
    answer is the constant ".".  Otherwise the same string is written to
    [DirnameBuf] and the argument is only read. *)
Definition dirname (path : option ptr) : M ptr :=
  if dirname_in_place P then
    match path with
    | None => mret (Lit ".")
    | Some p =>
        s ← read_str p;
        match CStr.dirname_cut s with
        | None => mret (Lit ".")
        | Some d => write p (CStr d);; mret p
        end
    end
  else
    match path with
    | None => write DirnameBuf (CStr ".");; mret DirnameBuf
    | Some p =>
        s ← read_str p;
        write DirnameBuf (CStr (CStr.dirname_string s));; mret DirnameBuf
    end.

(** [snprintf(buf, size, prefix "%s" suffix, arg)]. *)
Definition snprintf (buf : ptr) (size : nat) (prefix : string) (arg : ptr)
    (suffix : string) : M unit :=
  s ← read_str arg;
  write buf (CStr (CStr.truncate (size - 1) (prefix ++ s ++ suffix))).

(** The entry for [name] is replaced where it stands, or added at the end. *)
Fixpoint add_to_environ (w : world) (name : string) (p : ptr)
    (env : list ptr) : list ptr :=
  match env with
  | [] => [p]
  | e :: env' =>
      if entry_named w name e then p :: env'
      else e :: add_to_environ w name p env'
  end.

(** [putenv(string)]: with a '=', the pointer becomes the entry of its
    name; without, the variable is removed. *)
Definition putenv (p : ptr) : M unit :=
  s ← read_str p;
  w ← get_world;
  match CStr.name_end s with
  | Some name => set_environ (add_to_environ w name p (environ w))
  | None => set_environ (filter (λ e, entry_named w s e = false) (environ w))
  end.

(** ** The runtime's entry points *)

Definition uv_setup_args (argc : Z) (argv : ptr * nat) : M unit :=
  emit (Ev_uv_setup_args argc argv.1 argv.2).

Definition libsupport_init : M unit := emit Ev_libsupport_init.

(** [jl_parse_opts(argcp, argvp)] reads and rewrites the two variables it
    is given the addresses of, and the argument vector. *)
Definition jl_parse_opts (argcp argvp : ptr) : M unit :=
  argc ← read_int argcp;
  argv ← read_argv_ptr argvp;
  args ← read_argv argv.1;
  let '(argc', off', args') := parse_opts R argc argv.2 args in
  write argcp (CInt argc');;
  write argvp (CArgvPtr argv.1 off');;
  write argv.1 (CArgv args');;
  emit (Ev_jl_parse_opts argcp argvp).

(** [jl_error] reports [msg]; the shim goes on to [exit(1)] after it. *)
Definition jl_error (msg : string) : M unit := emit (Ev_jl_error msg).

Definition jl_load_dynamic_library (name : string) (flags : rtld_flags)
    (throw_err : Z) : M Z :=
  emit (Ev_jl_load_dynamic_library name flags throw_err);;
  mret (load_dynamic_library R name flags throw_err).

Definition jl_pathname_for_handle (handle : Z) : M (option ptr) :=
  emit (Ev_jl_pathname_for_handle handle);;
  mret (pathname_for_handle R handle).

(** [julia_init] loads the image [jl_options.image_file] names: the event
    records the pointer and the string it finds there. *)
Definition julia_init (rel : JL_IMAGE_SEARCH) : M unit :=
  w ← get_world;
  emit (Ev_julia_init rel (image_file w) (image_file w ≫= load_str w)).

Definition jl_atexit_hook (status : Z) : M unit :=
  emit (Ev_jl_atexit_hook status).

(** ** julia_init.c *)

Definition setup_args (argc : Z) (argv : ptr * nat) : M unit :=
  call_frame (
    argc_p ← parameter (CInt argc);
    argv_p ← parameter (CArgvPtr argv.1 argv.2);
    a ← read_int argc_p;
    v ← read_argv_ptr argv_p;
    uv_setup_args a v;;
    libsupport_init;;
    jl_parse_opts argc_p argv_p).

Definition get_sysimage_path (libname : option string) : M (option ptr) :=
  call_frame (
    match libname with
    | None =>
        jl_error "Please specify `libname` when requesting the sysimage path";;
        exit 1
    | Some name =>
        handle ← jl_load_dynamic_library name JL_RTLD_DEFAULT 0;
        libpath ← jl_pathname_for_handle handle;
        mret libpath
    end).

(** The argument of "%s": [dirname(dirname(sysimage_path))]. *)
Definition depot_dir (sysimage_path : option ptr) : M ptr :=
  d ← dirname sysimage_path;
  dirname (Some d).

Definition set_depot_path (sysimage_path : option ptr) : M unit :=
  call_frame (
    buf ← alloca;
    d ← depot_dir sysimage_path;
    snprintf buf (PATH_MAX P + 20) "JULIA_DEPOT_PATH=" d "/";;
    putenv buf;;
    putenv (Lit "JULIA_LOAD_PATH=@")).

Definition init_julia (argc : Z) (argv : ptr * nat) : M unit :=
  call_frame (
    setup_args argc argv;;
    sysimage_path ← get_sysimage_path (JULIAC_PROGRAM_LIBNAME R);
    set_depot_path sysimage_path;;
    set_image_file sysimage_path;;
    julia_init JL_IMAGE_JULIA_HOME).

Definition shutdown_julia (retcode : Z) : M unit :=
  call_frame (jl_atexit_hook retcode).

End Shim.

(** ** Storage and state predicates *)

Definition is_lit (p : ptr) : bool :=
  match p with
  | Lit _ => true
  | _ => false
  end.

(** Two states with the same bytes everywhere. *)
Definition same_mem (w w' : world) : Prop := ∀ q, load w q = load w' q.

(** The four fields [dirname], [snprintf] and the stores leave alone. *)
Definition same_regs (w w' : world) : Prop :=
  sp w' = sp w ∧ environ w' = environ w ∧ trace w' = trace w ∧
  image_file w' = image_file w.

(** An argument [dirname] accepts: a string it may cut, or one it will
    not cut. *)
Definition cuttable (w : world) (p : ptr) (s : string) : Prop :=
  load_str w p = Some s ∧ (is_lit p = false ∨ CStr.dirname_cut s = None).

(** The string [snprintf] leaves in [buf] for the depot directory [d]. *)
Definition depot_entry (P : platform) (d : string) : string :=
  CStr.truncate (PATH_MAX P + 20 - 1) ("JULIA_DEPOT_PATH=" ++ d ++ "/").

Definition libname_error : string :=
  "Please specify `libname` when requesting the sysimage path".

(** ** Paths by their components *)

Module Layout.

(** A path component: not empty, no separator in it. *)
Definition component (c : string) : bool :=
  negb (CStr.has_slash c) && negb (String.eqb c "").

(** The absolute path with the components [cs], without its root when
    there are none: [abs_path ["opt"; "app"]] is "/opt/app". *)
Fixpoint abs_path (cs : list string) : string :=
  match cs with
  | [] => ""
  | c :: cs' => "/" ++ c ++ abs_path cs'
  end.

(** The directory with the components [cs]. *)
Definition directory (cs : list string) : string :=
  match cs with
  | [] => "/"
  | _ => abs_path cs
  end.

End Layout.

(** ** Observations the statements below use *)

(** The names [set_depot_path] may touch: the entry of any name outside
    [names] is the pointer that was there. *)
Definition only_changes (names : list string) (w w' : world) : Prop :=
  ∀ name, CStr.name_end name = None → name ∉ names →
          List.find (entry_named w' name) (environ w')
          = List.find (entry_named w' name) (environ w).

(** The name each entry of the environment defines. *)
Definition environ_names (w : world) : list (option string) :=
  (λ e, load_str w e ≫= CStr.name_end) <$> environ w.

(** Every object that was alive and is not an argument vector holds what it
    held. *)
Definition variables_kept (w w' : world) : Prop :=
  ∀ q c, live w q = true → load w q = Some c →
         (∀ args, c ≠ CArgv args) → load w' q = Some c.

(** The statuses [jl_atexit_hook] was called with, and the calls of
    [julia_init]. *)
Definition atexit_calls (t : list event) : list Z :=
  omap (λ e, match e with Ev_jl_atexit_hook n => Some n | _ => None end) t.

Definition julia_init_calls (t : list event) : list event :=
  List.filter (λ e, match e with Ev_julia_init _ _ _ => true | _ => false end) t.

(** A host whose [main] keeps [argc] and [argv] in its frame. *)
Definition host_world (path : string) : world :=
  World [CStr path; CArgv ["app"; "--flag"]]
        (<[0 := CInt 2]> (<[1 := CArgvPtr (Static 1) 0]> ∅)) 2 "" [] None [].


(** ** A run on a concrete process *)

(** Linux with glibc: [dirname] cuts in place.  macOS: it answers from
    storage of its own. *)
Definition linux : platform := Platform 4096 true.
Definition darwin : platform := Platform 1024 false.

(** The loader found the library at the path in [Static 0]; the parser
    consumes one argument. *)
Definition example_runtime : runtime :=
  Runtime (Some "libapp")
          (λ argc off args, (argc - 1, S off, args)%Z)
          (λ _ _ _, 7%Z)
          (λ h, if Z.eqb h 7 then Some (Static 0) else None).

Definition example_world (path : string) (env : list ptr) : world :=
  World [CStr path; CArgv ["app"; "--flag"]] ∅ 0 "" env None [].

Definition unnamed_runtime : runtime :=
  Runtime None (parse_opts example_runtime)
          (load_dynamic_library example_runtime)
          (pathname_for_handle example_runtime).

Definition image_path : string := "/opt/app/lib/x86/image.so".

(** ** More observations and processes *)

(** What a [dirname] that cuts in place leaves in its argument. *)
Definition kept (s : string) : string := default s (CStr.dirname_cut s).

(** The value of every variable outside [names] is what it was. *)
Definition other_values_kept (names : list string) (w w' : world) : Prop :=
  ∀ name, CStr.name_end name = None → name ∉ names →
          getenv w' name = getenv w name.

(** No entry of the environment is the string at [p] or the buffer of
    [dirname]. *)
Definition environ_apart (w : world) (p : ptr) : bool :=
  forallb (λ e, negb (bool_decide (e = p)) && negb (bool_decide (e = DirnameBuf)))
          (environ w).

Fixpoint replicate_char (n : nat) (c : ascii) : string :=
  match n with
  | 0 => ""
  | S n' => String c (replicate_char n' c)
  end.

(** A library two levels below a directory with a name of 5000 letters. *)
Definition long_path : string :=
  "/" ++ replicate_char 5000 "a" ++ "/x86/image.so".


(** * Proofs *)

(** ** [dirname] on the paths of the POSIX table *)

Example dirname_usr_lib : CStr.dirname_string "/usr/lib" = "/usr".
Proof. reflexivity. Qed.
Example dirname_usr_slash : CStr.dirname_string "/usr/" = "/".
Proof. reflexivity. Qed.
Example dirname_usr : CStr.dirname_string "usr" = ".".
Proof. reflexivity. Qed.
Example dirname_root : CStr.dirname_string "/" = "/".
Proof. reflexivity. Qed.
Example dirname_dot : CStr.dirname_string "." = ".".
Proof. reflexivity. Qed.
Example dirname_dotdot : CStr.dirname_string ".." = ".".
Proof. reflexivity. Qed.
Example dirname_empty : CStr.dirname_string "" = ".".
Proof. reflexivity. Qed.
Example dirname_two_slashes : CStr.dirname_string "//foo" = "//".
Proof. reflexivity. Qed.
Example dirname_three_slashes : CStr.dirname_string "///foo" = "/".
Proof. reflexivity. Qed.
Example dirname_trailing : CStr.dirname_string "a//b///" = "a".
Proof. reflexivity. Qed.
Example dirname_only_slashes : CStr.dirname_string "///" = "/".
Proof. reflexivity. Qed.
Example dirname_rel_trailing : CStr.dirname_string "b///" = ".".
Proof. reflexivity. Qed.


(** ** C strings *)

Section CStrFacts.

Import CStr.

Abbreviation chars := list_ascii_of_string.

Lemma chars_app (a b : string) : chars (a ++ b) = (chars a ++ chars b)%list.
Proof. induction a as [|c a IH]; simpl; [done | by rewrite IH]. Qed.

Lemma append_assoc (a b c : string) : (a ++ b) ++ c = a ++ b ++ c.
Proof. induction a as [|x a IH]; simpl; [done | by rewrite IH]. Qed.

Lemma append_nil_r (a : string) : a ++ "" = a.
Proof. induction a as [|x a IH]; simpl; [done | by rewrite IH]. Qed.

Lemma length_append (a b : string) :
  String.length (a ++ b) = String.length a + String.length b.
Proof. induction a as [|x a IH]; simpl; [done | by rewrite IH]. Qed.

Lemma truncate_all (n : nat) (s : string) :
  String.length s ≤ n → truncate n s = s.
Proof.
  revert n; induction s as [|c s IH]; intros [|n] Hn; simpl in *; try done.
  - lia.
  - rewrite IH; [done | lia].
Qed.

Lemma truncate_app (a : string) (n : nat) (s : string) :
  truncate (String.length a + n) (a ++ s) = a ++ truncate n s.
Proof. induction a as [|c a IH]; simpl; [done | by rewrite IH]. Qed.

Lemma drop_app (a s : string) : drop (String.length a) (a ++ s) = s.
Proof. induction a as [|c a IH]; simpl; [by destruct s | done]. Qed.

Lemma starts_with_app (a s : string) : starts_with a (a ++ s) = true.
Proof.
  induction a as [|c a IH]; simpl; [done |].
  by rewrite Ascii.eqb_refl, IH.
Qed.

Lemma starts_with_inv (a s : string) :
  starts_with a s = true → s = a ++ drop (String.length a) s.
Proof.
  revert s; induction a as [|c a IH]; intros [|y s] H; simpl in *; try done.
  apply andb_prop in H as [Hc Hs].
  apply Ascii.eqb_eq in Hc as ->. by rewrite <- IH.
Qed.

Lemma name_end_app (a s : string) :
  name_end a = None → name_end (a ++ "=" ++ s) = Some a.
Proof.
  induction a as [|c a IH]; simpl in *; [done |].
  destruct (Ascii.eqb c "="); [done |].
  destruct (name_end a); [done |]. intros _. by rewrite IH.
Qed.

Lemma has_slash_chars (s : string) :
  has_slash s = false → Forall (λ c, is_slash c = false) (chars s).
Proof.
  induction s as [|c s IH]; simpl; [constructor |].
  intros [Hc Hs]%orb_false_elim. constructor; auto.
Qed.

Lemma drop_component_app (l r : list ascii) :
  Forall (λ c, is_slash c = false) l →
  drop_component (l ++ "/"%char :: r)%list = "/"%char :: r.
Proof.
  induction 1 as [|c l Hc _ IH]; simpl; [done |]. by rewrite Hc.
Qed.

Lemma component_chars (c : string) :
  Layout.component c = true →
  ∃ x l, rev (chars c) = x :: l ∧ is_slash x = false ∧
         Forall (λ c, is_slash c = false) (x :: l).
Proof.
  unfold Layout.component. intros [Hs Hne]%andb_prop.
  apply negb_true_iff in Hs. apply negb_true_iff in Hne.
  apply has_slash_chars in Hs.
  assert (Hrev : Forall (λ c, is_slash c = false) (rev (chars c)))
    by (by apply List.Forall_rev).
  destruct (rev (chars c)) as [|x l] eqn:E.
  - destruct c; [done |]. simpl in E.
    by apply app_eq_nil in E as [_ ?].
  - exists x, l. split; [done |]. split; [| done].
    by inversion Hrev.
Qed.

(** The directory part of [x/c] is [x], for a component [c] and a path
    [x] that ends in one. *)
Lemma dirname_cut_join (x c : string) (y : ascii) (l : list ascii) :
  rev (chars x) = y :: l → is_slash y = false →
  Layout.component c = true →
  dirname_cut (x ++ "/" ++ c) = Some x.
Proof.
  intros Hx Hy (z & m & Hc & Hz & Hall)%component_chars.
  unfold dirname_cut, dirname_rev.
  assert (E : rev (chars (x ++ "/" ++ c))
              = ((z :: m) ++ "/"%char :: y :: l)%list).
  { rewrite chars_app, rev_app_distr. simpl chars.
    change (rev ("/"%char :: chars c))
      with (rev (chars c) ++ ["/"%char])%list.
    rewrite Hc, Hx. by rewrite <- app_assoc. }
  rewrite E. simpl drop_slashes at 1. rewrite Hz.
  change (z :: (m ++ "/"%char :: y :: l)%list)
    with ((z :: m) ++ "/"%char :: y :: l)%list.
  rewrite drop_component_app by done.
  simpl. rewrite Hy. simpl.
  change (rev l ++ [y])%list with (rev (y :: l)).
  rewrite <- Hx, rev_involutive, string_of_list_ascii_of_string. done.
Qed.

(** The directory part of [/c] is the root. *)
Lemma dirname_cut_root (c : string) :
  Layout.component c = true → dirname_cut ("/" ++ c) = Some "/".
Proof.
  intros (z & m & Hc & Hz & Hall)%component_chars.
  unfold dirname_cut, dirname_rev.
  simpl chars.
  change (rev ("/"%char :: chars c)) with (rev (chars c) ++ ["/"%char])%list.
  rewrite Hc. simpl drop_slashes at 1. rewrite Hz.
  change (z :: (m ++ ["/"%char])%list) with ((z :: m) ++ "/"%char :: [])%list.
  rewrite drop_component_app by done. done.
Qed.

End CStrFacts.

(** ** Two levels up, by components *)

Section LayoutFacts.

Import CStr Layout.

Abbreviation chars := list_ascii_of_string.

Lemma abs_path_app (cs cs' : list string) :
  abs_path (cs ++ cs')%list = abs_path cs ++ abs_path cs'.
Proof.
  induction cs as [|c cs IH]; [done |].
  change (abs_path ((c :: cs) ++ cs')%list)
    with ("/" ++ c ++ abs_path (cs ++ cs')%list).
  rewrite IH. simpl. by rewrite append_assoc.
Qed.

Lemma abs_path_snoc (cs : list string) (c : string) :
  abs_path (cs ++ [c])%list = abs_path cs ++ "/" ++ c.
Proof. rewrite abs_path_app. simpl. by rewrite append_nil_r. Qed.

(** A path of one component or more ends in a character that is not a
    separator. *)
Lemma abs_path_end (cs : list string) (c : string) :
  component c = true →
  ∃ y l, rev (chars (abs_path (cs ++ [c])%list)) = y :: l ∧ is_slash y = false.
Proof.
  intros (z & m & Hc & Hz & _)%component_chars.
  rewrite abs_path_snoc, chars_app, rev_app_distr, chars_app, rev_app_distr.
  rewrite Hc. eexists _, _. split; [reflexivity | done].
Qed.

Lemma dirname_cut_file (cs : list string) (d f : string) :
  component d = true → component f = true →
  dirname_cut (abs_path (cs ++ [d; f])%list) = Some (abs_path (cs ++ [d])%list).
Proof.
  intros Hd Hf.
  change (cs ++ [d; f])%list with (cs ++ [d] ++ [f])%list.
  rewrite app_assoc, abs_path_snoc.
  destruct (abs_path_end cs d Hd) as (y & l & E & Hy).
  by eapply dirname_cut_join.
Qed.

Lemma snoc_cases {A} (l : list A) : l = [] ∨ ∃ l0 x, l = (l0 ++ [x])%list.
Proof. induction l using rev_ind; [by left | right; eauto]. Qed.

Lemma dirname_cut_parent (cs : list string) (d : string) :
  forallb component cs = true → component d = true →
  dirname_cut (abs_path (cs ++ [d])%list) = Some (directory cs).
Proof.
  intros Hcs Hd. rewrite abs_path_snoc.
  destruct (snoc_cases cs) as [-> | (cs0 & c & ->)].
  - simpl. by apply dirname_cut_root.
  - rewrite forallb_app in Hcs.
    apply andb_prop in Hcs as [_ Hc]. simpl in Hc.
    apply andb_prop in Hc as [Hc _].
    destruct (abs_path_end cs0 c Hc) as (y & l & E & Hy).
    replace (directory (cs0 ++ [c])%list) with (abs_path (cs0 ++ [c])%list)
      by (by destruct cs0).
    by eapply dirname_cut_join.
Qed.

(** [dirname(dirname(path))] of [/cs.../d/f] is [/cs...]. *)
Lemma dirname_twice (cs : list string) (d f : string) :
  forallb component (cs ++ [d; f])%list = true →
  dirname_string (dirname_string (abs_path (cs ++ [d; f])%list))
  = directory cs.
Proof.
  rewrite forallb_app. intros [Hcs Hdf]%andb_prop. simpl in Hdf.
  apply andb_prop in Hdf as [Hd Hf]. apply andb_prop in Hf as [Hf _].
  unfold dirname_string.
  rewrite dirname_cut_file by done. simpl.
  by rewrite dirname_cut_parent.
Qed.

(** A directory of one component or more does not end in a separator. *)
Lemma directory_no_trailing_slash (cs : list string) :
  forallb component cs = true → cs ≠ [] →
  ends_with_slash (directory cs) = false.
Proof.
  intros Hcs Hne.
  destruct (snoc_cases cs) as [-> | (cs0 & c & ->)]; [done |].
  rewrite forallb_app in Hcs.
  apply andb_prop in Hcs as [_ Hc]. simpl in Hc.
  apply andb_prop in Hc as [Hc _].
  destruct (abs_path_end cs0 c Hc) as (y & l & E & Hy).
  replace (directory (cs0 ++ [c])%list) with (abs_path (cs0 ++ [c])%list)
    by (by destruct cs0).
  unfold ends_with_slash. by rewrite E.
Qed.

End LayoutFacts.

(** ** Storage *)

Section Storage.

Lemma load_store (p q : ptr) (c : cell) (w w' : world) :
  store p c w = Some w' →
  load w' q = if decide (q = p) then Some c else load w q.
Proof.
  destruct p as [t| |i|i]; simpl; [done | | |].
  - destruct c; intros [= <-]; try done.
    by destruct q.
  - case_decide as Hi; intros [= <-].
    destruct q as [t'| |j|j]; simpl; try done.
    destruct (decide (j = i)) as [->|Hne].
    + rewrite decide_True by done. by apply list_lookup_insert_eq.
    + rewrite decide_False by congruence. by apply list_lookup_insert_ne.
  - intros [= <-].
    destruct q as [t'| |j|j]; simpl; try done.
    destruct (decide (j = i)) as [->|Hne].
    + rewrite decide_True by done. by apply lookup_insert_eq.
    + rewrite decide_False by congruence. by apply lookup_insert_ne.
Qed.

Lemma store_regs (p : ptr) (c : cell) (w w' : world) :
  store p c w = Some w' →
  sp w' = sp w ∧ environ w' = environ w ∧ trace w' = trace w ∧
  image_file w' = image_file w.
Proof.
  destruct p as [t| |i|i]; simpl; [done | | |].
  - destruct c; by intros [= <-].
  - case_decide; by intros [= <-].
  - by intros [= <-].
Qed.

(** A string can be written wherever a string can be read, outside the
    literals. *)
Lemma store_str_ok (p : ptr) (s t : string) (w : world) :
  load_str w p = Some s → is_lit p = false →
  ∃ w', store p (CStr t) w = Some w'.
Proof.
  unfold load_str. destruct p as [u| |i|i]; simpl; try done; eauto.
  intros H _. destruct (statics w !! i) eqn:E; [| done].
  apply lookup_lt_Some in E. rewrite decide_True by done. eauto.
Qed.

Lemma load_str_store (p : ptr) (t : string) (w w' : world) :
  store p (CStr t) w = Some w' → load_str w' p = Some t.
Proof.
  intros H. unfold load_str. rewrite (load_store _ _ _ _ _ H).
  by rewrite decide_True.
Qed.

Lemma entry_named_ext (w w' : world) (name : string) (e : ptr) :
  same_mem w w' → entry_named w name e = entry_named w' name e.
Proof. intros H. unfold entry_named, load_str. by rewrite (H e). Qed.

Lemma add_to_environ_ext (w w' : world) (name : string) (p : ptr)
    (env : list ptr) :
  same_mem w w' → add_to_environ w name p env = add_to_environ w' name p env.
Proof.
  intros H. induction env as [|e env IH]; simpl; [done |].
  by rewrite (entry_named_ext w w' name e H), IH.
Qed.

End Storage.

(** ** Running the monad *)

Section Run.

Lemma bind_run {A B} (m : M A) (k : A → M B) (w : world) :
  (m ≫= k) w = match m w with
               | (Ret a, w') => k a w'
               | (Exit n, w') => (Exit n, w')
               | (Fault, w') => (Fault, w')
               end.
Proof. reflexivity. Qed.

Lemma bind_ret {A B} (m : M A) (k : A → M B) (w w' : world) (a : A) :
  m w = (Ret a, w') → (m ≫= k) w = k a w'.
Proof. intros H. by rewrite bind_run, H. Qed.

Lemma call_frame_ret {A} (body : M A) (w w' : world) (a : A) :
  body w = (Ret a, w') → call_frame body w = (Ret a, with_sp (sp w) w').
Proof. intros H. unfold call_frame. by rewrite H. Qed.

Lemma read_str_run (p : ptr) (s : string) (w : world) :
  load_str w p = Some s → read_str p w = (Ret s, w).
Proof.
  unfold load_str, read_str, read. intros H.
  rewrite bind_run. destruct (load w p) as [[]|]; naive_solver.
Qed.

Lemma write_run (p : ptr) (c : cell) (w w' : world) :
  store p c w = Some w' → write p c w = (Ret (), w').
Proof. unfold write. by intros ->. Qed.

Lemma snprintf_run (buf arg : ptr) (size : nat) (pre suf s : string)
    (w w' : world) :
  load_str w arg = Some s →
  store buf (CStr (CStr.truncate (size - 1) (pre ++ s ++ suf))) w = Some w' →
  snprintf buf size pre arg suf w = (Ret (), w').
Proof.
  intros Hs Hw. unfold snprintf.
  rewrite (bind_ret _ _ _ _ _ (read_str_run _ _ _ Hs)).
  by apply write_run.
Qed.

Lemma putenv_run (p : ptr) (s name : string) (w : world) :
  load_str w p = Some s → CStr.name_end s = Some name →
  putenv p w
  = (Ret (), with_environ (add_to_environ w name p (environ w)) w).
Proof.
  intros Hs Hn. unfold putenv.
  rewrite (bind_ret _ _ _ _ _ (read_str_run _ _ _ Hs)).
  rewrite bind_run. simpl. by rewrite Hn.
Qed.

End Run.

(** ** [dirname] and the depot directory *)

Section Depot.

Import CStr.

Variable P : platform.

Lemma dirname_run (p : ptr) (s : string) (w : world) :
  cuttable w p s →
  ∃ d w', dirname P (Some p) w = (Ret d, w') ∧
          cuttable w' d (dirname_string s) ∧ same_regs w w'.
Proof.
  intros [Hs Hp]. unfold dirname.
  destruct (dirname_in_place P).
  - rewrite (bind_ret _ _ _ _ _ (read_str_run _ _ _ Hs)).
    unfold dirname_string.
    destruct (dirname_cut s) as [d|] eqn:E.
    + destruct Hp as [Hp|]; [| done].
      destruct (store_str_ok p s d w Hs Hp) as [w' Hw].
      exists p, w'.
      rewrite (bind_ret _ _ _ _ _ (write_run _ _ _ _ Hw)).
      split; [done |]. split.
      * split; [by eapply load_str_store | by left].
      * by apply store_regs in Hw.
    + exists (Lit "."), w. split; [done |]. split; [| done].
      split; [done | by right].
  - rewrite (bind_ret _ _ _ _ _ (read_str_run _ _ _ Hs)).
    exists DirnameBuf, (with_dirname_buf (dirname_string s) w).
    split; [done |]. split; [| done]. split; [done | by left].
Qed.

Lemma depot_dir_run (p : ptr) (s : string) (w : world) :
  cuttable w p s →
  ∃ d w', depot_dir P (Some p) w = (Ret d, w') ∧
          load_str w' d = Some (dirname_string (dirname_string s)) ∧
          same_regs w w'.
Proof.
  intros H.
  destruct (dirname_run p s w H) as (d1 & w1 & E1 & H1 & R1).
  destruct (dirname_run d1 _ w1 H1) as (d2 & w2 & E2 & [H2 _] & R2).
  exists d2, w2. unfold depot_dir.
  rewrite (bind_ret _ _ _ _ _ E1). split; [done |]. split; [done |].
  destruct R1 as (? & ? & ? & ?), R2 as (? & ? & ? & ?).
  unfold same_regs. split_and!; congruence.
Qed.

Lemma depot_entry_eq (d : string) :
  depot_entry P d = "JULIA_DEPOT_PATH=" ++ truncate (PATH_MAX P + 2) (d ++ "/").
Proof.
  unfold depot_entry.
  replace (PATH_MAX P + 20 - 1)
    with (String.length "JULIA_DEPOT_PATH=" + (PATH_MAX P + 2))
    by (simpl; lia).
  apply truncate_app.
Qed.

Lemma depot_entry_fits (d : string) :
  String.length d ≤ PATH_MAX P + 1 →
  depot_entry P d = "JULIA_DEPOT_PATH=" ++ d ++ "/".
Proof.
  intros H. rewrite depot_entry_eq, truncate_all; [done |].
  rewrite length_append. simpl. lia.
Qed.

Lemma depot_entry_name (d : string) :
  name_end (depot_entry P d) = Some "JULIA_DEPOT_PATH".
Proof. rewrite depot_entry_eq. by apply (name_end_app "JULIA_DEPOT_PATH"). Qed.

(** What [set_depot_path] does to a state: the entry is written to the
    stack slot at [sp], the two pointers are put in the environment, and
    the slot is given back. *)
Lemma set_depot_path_run (p : ptr) (s : string) (w : world) :
  load_str w p = Some s → is_lit p = false →
  ∃ w', set_depot_path P (Some p) w = (Ret (), w') ∧
        sp w' = sp w ∧ trace w' = trace w ∧ image_file w' = image_file w ∧
        load_str w' (Stack (sp w))
        = Some (depot_entry P (dirname_string (dirname_string s))) ∧
        environ w'
        = add_to_environ w' "JULIA_LOAD_PATH" (Lit "JULIA_LOAD_PATH=@")
            (add_to_environ w' "JULIA_DEPOT_PATH" (Stack (sp w)) (environ w)).
Proof.
  intros Hs Hp.
  set (D := dirname_string (dirname_string s)).
  set (w0 := with_sp (S (sp w)) w).
  assert (H0 : cuttable w0 p s) by (split; [done | by left]).
  destruct (depot_dir_run p s w0 H0) as (d & w1 & E1 & Hd & R1).
  set (w2 := with_stack (<[sp w := CStr (depot_entry P D)]> (stack w1)) w1).
  assert (E2 : snprintf (Stack (sp w)) (PATH_MAX P + 20)
                 "JULIA_DEPOT_PATH=" d "/" w1 = (Ret (), w2))
    by (by eapply snprintf_run).
  assert (Hbuf : load_str w2 (Stack (sp w)) = Some (depot_entry P D))
    by (unfold load_str; simpl; by rewrite lookup_insert_eq).
  set (env1 := add_to_environ w2 "JULIA_DEPOT_PATH" (Stack (sp w)) (environ w2)).
  set (w3 := with_environ env1 w2).
  assert (E3 : putenv (Stack (sp w)) w2 = (Ret (), w3))
    by (eapply putenv_run; [done | apply depot_entry_name]).
  set (env2 := add_to_environ w3 "JULIA_LOAD_PATH" (Lit "JULIA_LOAD_PATH=@") env1).
  set (w4 := with_environ env2 w3).
  assert (E4 : putenv (Lit "JULIA_LOAD_PATH=@") w3 = (Ret (), w4))
    by (by eapply putenv_run).
  exists (with_sp (sp w) w4). split.
  - unfold set_depot_path. apply call_frame_ret.
    rewrite (bind_ret _ _ w w0 (Stack (sp w))) by done.
    rewrite (bind_ret _ _ _ _ _ E1), (bind_ret _ _ _ _ _ E2).
    by rewrite (bind_ret _ _ _ _ _ E3).
  - destruct R1 as (R1 & R2 & R3 & R4).
    split; [done |]. split; [done |]. split; [done |]. split; [done |].
    simpl. unfold env2, env1. simpl. rewrite R2. simpl.
    rewrite (add_to_environ_ext (with_sp (sp w) w4) w3) by done.
    f_equal. by apply add_to_environ_ext.
Qed.

End Depot.

(** ** The environment *)

Section Environ.

Import CStr.

Variable w : world.

Lemma find_add_same (name : string) (p : ptr) (env : list ptr) :
  entry_named w name p = true →
  List.find (entry_named w name) (add_to_environ w name p env) = Some p.
Proof.
  intros Hp. induction env as [|e env IH]; simpl.
  - by rewrite Hp.
  - destruct (entry_named w name e) eqn:E; simpl.
    + by rewrite Hp.
    + by rewrite E.
Qed.

Lemma find_add_other (n n' : string) (p : ptr) (env : list ptr) :
  entry_named w n p = false →
  (∀ e, entry_named w n' e = true → entry_named w n e = false) →
  List.find (entry_named w n) (add_to_environ w n' p env)
  = List.find (entry_named w n) env.
Proof.
  intros Hp Hex. induction env as [|e env IH]; simpl.
  - by rewrite Hp.
  - destruct (entry_named w n' e) eqn:E; simpl.
    + by rewrite Hp, (Hex e E).
    + by rewrite IH.
Qed.


Lemma elem_of_add_self (name : string) (p : ptr) (env : list ptr) :
  p ∈ add_to_environ w name p env.
Proof.
  induction env as [|e env IH]; simpl; [set_solver |].
  destruct (entry_named w name e); set_solver.
Qed.

Lemma elem_of_add_other (name : string) (p e : ptr) (env : list ptr) :
  e ∈ env → entry_named w name e = false →
  e ∈ add_to_environ w name p env.
Proof.
  intros He Hn. induction env as [|x env IH]; simpl;
    [by apply elem_of_nil in He |].
  apply elem_of_cons in He as [-> | He].
  - rewrite Hn. set_solver.
  - destruct (entry_named w name x); set_solver.
Qed.

(** An entry defines one name. *)
Lemma entry_named_unique (n n' : string) (e : ptr) :
  name_end n = None → name_end n' = None →
  entry_named w n e = true → entry_named w n' e = true → n = n'.
Proof.
  unfold entry_named. intros Hn Hn'.
  destruct (load_str w e) as [s|]; [| done].
  intros H%starts_with_inv H'%starts_with_inv.
  rewrite append_assoc in H, H'.
  assert (E : name_end s = Some n) by (rewrite H; by apply name_end_app).
  rewrite H' in E. rewrite name_end_app in E by done. congruence.
Qed.

Lemma entry_named_other (n n' : string) (e : ptr) :
  name_end n = None → name_end n' = None → n ≠ n' →
  entry_named w n' e = true → entry_named w n e = false.
Proof.
  intros Hn Hn' Hne H'.
  destruct (entry_named w n e) eqn:E; [| done].
  by destruct Hne; eapply entry_named_unique.
Qed.

Lemma getenv_found (name : string) (e : ptr) (s : string) :
  List.find (entry_named w name) (environ w) = Some e →
  load_str w e = Some (name ++ "=" ++ s) →
  getenv w name = Some s.
Proof.
  intros Hf Hs. unfold getenv. rewrite Hf.
  change ((load_str w e ≫= λ t, Some (drop (String.length name + 1) t))
          = Some s).
  rewrite Hs.
  change (Some (drop (String.length name + 1) (name ++ "=" ++ s)) = Some s).
  f_equal.
  replace (String.length name + 1) with (String.length (name ++ "="))
    by (rewrite length_append; simpl; lia).
  rewrite <- append_assoc. apply drop_app.
Qed.

End Environ.

(** ** The environment after [set_depot_path] *)

Section Configured.

Import CStr.

Variable P : platform.

Lemma depot_entry_named (w : world) (p : ptr) (d : string) :
  load_str w p = Some (depot_entry P d) →
  entry_named w "JULIA_DEPOT_PATH" p = true ∧
  entry_named w "JULIA_LOAD_PATH" p = false.
Proof.
  intros H. unfold entry_named. rewrite H, depot_entry_eq. split.
  - apply (starts_with_app "JULIA_DEPOT_PATH=").
  - reflexivity.
Qed.

(** The two variables as [getenv] finds them when [set_depot_path] has
    returned, whatever the environment was before. *)
Lemma set_depot_path_env (p : ptr) (s : string) (w : world) :
  load_str w p = Some s → is_lit p = false →
  ∃ w', set_depot_path P (Some p) w = (Ret (), w') ∧
        getenv w' "JULIA_LOAD_PATH" = Some "@" ∧
        getenv w' "JULIA_DEPOT_PATH"
        = Some (truncate (PATH_MAX P + 2)
                  (dirname_string (dirname_string s) ++ "/")).
Proof.
  intros Hs Hp.
  destruct (set_depot_path_run P p s w Hs Hp)
    as (w' & E & _ & _ & _ & Hbuf & Henv).
  destruct (depot_entry_named w' _ _ Hbuf) as [HD HL].
  exists w'. split; [done |]. split.
  - apply (getenv_found w' "JULIA_LOAD_PATH" (Lit "JULIA_LOAD_PATH=@"));
      [| done].
    rewrite Henv. by apply find_add_same.
  - apply (getenv_found w' "JULIA_DEPOT_PATH" (Stack (sp w))).
    + rewrite Henv, find_add_other.
      * by apply find_add_same.
      * done.
      * intros e. by apply entry_named_other.
    + rewrite Hbuf. f_equal. apply depot_entry_eq.
Qed.

(** The entry of any other name is the one that was there. *)
Lemma set_depot_path_other (p : ptr) (s name : string) (w w' : world) :
  load_str w p = Some s → is_lit p = false →
  set_depot_path P (Some p) w = (Ret (), w') →
  name_end name = None →
  name ≠ "JULIA_DEPOT_PATH" → name ≠ "JULIA_LOAD_PATH" →
  List.find (entry_named w' name) (environ w')
  = List.find (entry_named w' name) (environ w).
Proof.
  intros Hs Hp E Hn HD HL.
  destruct (set_depot_path_run P p s w Hs Hp)
    as (w1 & E1 & _ & _ & _ & Hbuf & Henv).
  assert (w1 = w') as -> by congruence.
  destruct (depot_entry_named w' _ _ Hbuf) as [HbD HbL].
  rewrite Henv, !find_add_other; try done.
  - by eapply entry_named_other; [| | | exact HbD].
  - intros e. by apply entry_named_other.
  - unfold entry_named. simpl load_str. cbv iota.
    destruct (starts_with (name ++ "=") "JULIA_LOAD_PATH=@") eqn:F; [| done].
    destruct HL. eapply (entry_named_unique w' _ _ (Lit "JULIA_LOAD_PATH=@"));
      [done | done | exact F | done].
  - intros e. by apply entry_named_other.
Qed.

End Configured.

(** ** [setup_args] *)

Section SetupArgs.

Variable R : runtime.

Lemma read_int_run (p : ptr) (n : Z) (w : world) :
  load w p = Some (CInt n) → read_int p w = (Ret n, w).
Proof. intros H. unfold read_int, read. rewrite bind_run. by rewrite H. Qed.

Lemma read_argv_ptr_run (p a : ptr) (off : nat) (w : world) :
  load w p = Some (CArgvPtr a off) → read_argv_ptr p w = (Ret (a, off), w).
Proof.
  intros H. unfold read_argv_ptr, read. rewrite bind_run. by rewrite H.
Qed.

Lemma read_argv_run (p : ptr) (args : list string) (w : world) :
  load w p = Some (CArgv args) → read_argv p w = (Ret args, w).
Proof. intros H. unfold read_argv, read. rewrite bind_run. by rewrite H. Qed.

Lemma store_argv_ok (a : ptr) (args : list string) (c : cell) (w : world) :
  load w a = Some (CArgv args) → ∃ w', store a c w = Some w'.
Proof.
  destruct a as [t| |i|i]; simpl; try done; eauto.
  intros H%lookup_lt_Some. rewrite decide_True by done. eauto.
Qed.

(** A pointer into a live frame is not one of the slots a callee gets. *)
Lemma live_below (w : world) (q : ptr) (n : nat) :
  live w q = true → sp w ≤ n → q ≠ Stack n.
Proof.
  intros H Hn ->. simpl in H. apply bool_decide_eq_true in H. lia.
Qed.

(** What [setup_args] does to a state, for the argument vector [args] at
    [a]: three calls leave the shim, the vector is the one the parser
    left, and no other object that was alive has changed. *)
Lemma setup_args_run (argc : Z) (a : ptr) (off : nat) (args : list string)
    (w : world) :
  load w a = Some (CArgv args) → live w a = true →
  ∃ w', setup_args R argc (a, off) w = (Ret (), w') ∧
        sp w' = sp w ∧ environ w' = environ w ∧
        image_file w' = image_file w ∧
        trace w' = (trace w ++ [Ev_uv_setup_args argc a off;
                                Ev_libsupport_init;
                                Ev_jl_parse_opts (Stack (sp w)) (Stack (S (sp w)))])%list ∧
        load w' a = Some (CArgv (parse_opts R argc off args).2) ∧
        (∀ q, q ≠ a → live w q = true → load w' q = load w q).
Proof.
  intros Ha Hlive.
  pose proof (live_below w a (sp w) Hlive (le_n _)) as Hne0.
  pose proof (live_below w a (S (sp w)) Hlive (le_S _ _ (le_n _))) as Hne1.
  set (argc_p := Stack (sp w)). set (argv_p := Stack (S (sp w))).
  set (w1 := with_stack (<[sp w := CInt argc]> (stack w)) (with_sp (S (sp w)) w)).
  set (w2 := with_stack (<[S (sp w) := CArgvPtr a off]> (stack w1))
               (with_sp (S (S (sp w))) w1)).
  set (w3 := with_trace (trace w ++ [Ev_uv_setup_args argc a off;
                                     Ev_libsupport_init])%list w2).
  assert (L0 : load w3 argc_p = Some (CInt argc)).
  { simpl. rewrite lookup_insert_ne by lia. by rewrite lookup_insert_eq. }
  assert (L1 : load w3 argv_p = Some (CArgvPtr a off)).
  { simpl. by rewrite lookup_insert_eq. }
  assert (L2 : ∀ q, q ≠ argc_p → q ≠ argv_p → load w3 q = load w q).
  { intros [t| |i|i] H0 H1; simpl; try done.
    rewrite !lookup_insert_ne; [done | |]; unfold argc_p, argv_p in *; congruence. }
  assert (La : load w3 a = Some (CArgv args)) by (by rewrite L2).
  destruct (parse_opts R argc off args) as [[argc' off'] args'] eqn:Epo.
  assert (∃ w4, store argc_p (CInt argc') w3 = Some w4) as [w4 S4]
    by (eexists; reflexivity).
  assert (L1' : load w4 argv_p = Some (CArgvPtr a off)).
  { rewrite (load_store _ _ _ _ _ S4), decide_False; [done |].
    unfold argc_p, argv_p. intros [= ?]. lia. }
  assert (∃ w5, store argv_p (CArgvPtr a off') w4 = Some w5) as [w5 S5]
    by (eexists; reflexivity).
  assert (La' : load w5 a = Some (CArgv args)).
  { rewrite (load_store _ _ _ _ _ S5), decide_False by done.
    rewrite (load_store _ _ _ _ _ S4), decide_False by done. done. }
  destruct (store_argv_ok a _ (CArgv args') w5 La') as [w6 S6].
  set (w7 := with_trace (trace w6 ++ [Ev_jl_parse_opts argc_p argv_p])%list w6).
  exists (with_sp (sp w) w7).
  destruct (store_regs _ _ _ _ S4) as (R41 & R42 & R43 & R44).
  destruct (store_regs _ _ _ _ S5) as (R51 & R52 & R53 & R54).
  destruct (store_regs _ _ _ _ S6) as (R61 & R62 & R63 & R64).
  split.
  - unfold setup_args. apply call_frame_ret.
    change (parameter (CInt argc) ≫= _) with
      (parameter (CInt argc) ≫= λ argc_p,
         parameter (CArgvPtr a off) ≫= λ argv_p,
           read_int argc_p ≫= λ n, read_argv_ptr argv_p ≫= λ v,
             uv_setup_args n v ≫= λ _, libsupport_init ≫= λ _,
               jl_parse_opts R argc_p argv_p).
    rewrite (bind_ret _ _ w w1 argc_p) by done.
    rewrite (bind_ret _ _ w1 w2 argv_p) by done.
    rewrite (bind_ret _ _ w2 w2 argc) by (by apply read_int_run).
    rewrite (bind_ret _ _ w2 w2 (a, off)) by (by apply read_argv_ptr_run).
    rewrite (bind_ret _ _ w2
               (with_trace (trace w ++ [Ev_uv_setup_args argc a off])%list w2) ())
      by done.
    rewrite (bind_ret _ _ _ w3 ()).
    2:{ unfold libsupport_init, emit, w3. simpl. by rewrite <- app_assoc. }
    unfold jl_parse_opts.
    rewrite (bind_ret _ _ _ _ _ (read_int_run _ _ _ L0)).
    rewrite (bind_ret _ _ _ _ _ (read_argv_ptr_run _ _ _ _ L1)).
    simpl fst. simpl snd.
    rewrite (bind_ret _ _ _ _ _ (read_argv_run _ _ _ La)).
    rewrite Epo.
    rewrite (bind_ret _ _ _ _ _ (write_run _ _ _ _ S4)).
    rewrite (bind_ret _ _ _ _ _ (write_run _ _ _ _ S5)).
    rewrite (bind_ret _ _ _ _ _ (write_run _ _ _ _ S6)).
    done.
  - split; [done |].
    split; [change (environ w6 = environ w); by rewrite R62, R52, R42 |].
    split; [change (image_file w6 = image_file w); by rewrite R64, R54, R44 |].
    split.
    { unfold w7. simpl trace at 1.
      rewrite R63, R53, R43. simpl. by rewrite <- app_assoc. }
    split.
    { change (load w6 a = Some (CArgv args')).
      rewrite (load_store _ _ _ _ _ S6). by rewrite decide_True. }
    intros q Hq Hl. change (load w6 q = load w q).
    pose proof (live_below w q (sp w) Hl (le_n _)).
    pose proof (live_below w q (S (sp w)) Hl (le_S _ _ (le_n _))).
    rewrite (load_store _ _ _ _ _ S6), decide_False by done.
    rewrite (load_store _ _ _ _ _ S5), decide_False by done.
    rewrite (load_store _ _ _ _ _ S4), decide_False by done.
    by apply L2.
Qed.

End SetupArgs.

(** ** [init_julia] *)

Section Init.

Import CStr.

Variable P : platform.
Variable R : runtime.

Lemma find_ext {A} (f g : A → bool) (l : list A) :
  (∀ x, f x = g x) → List.find f l = List.find g l.
Proof.
  intros H. induction l as [|x l IH]; simpl; [done |].
  by rewrite H, IH.
Qed.

Lemma getenv_ext (w w' : world) (name : string) :
  same_mem w w' → environ w = environ w' → getenv w name = getenv w' name.
Proof.
  intros Hm He. unfold getenv. rewrite He.
  rewrite (find_ext (entry_named w name) (entry_named w' name))
    by (intros e; by apply entry_named_ext).
  destruct (List.find _ _) as [e|]; [| done]. simpl.
  unfold load_str. by rewrite (Hm e).
Qed.

Lemma get_sysimage_path_null (w : world) :
  get_sysimage_path R None w
  = (Exit 1, with_trace (trace w ++ [Ev_jl_error libname_error])%list w).
Proof. reflexivity. Qed.

Lemma get_sysimage_path_run (name : string) (w : world) :
  let h := load_dynamic_library R name JL_RTLD_DEFAULT 0 in
  get_sysimage_path R (Some name) w
  = (Ret (pathname_for_handle R h),
     with_trace (trace w ++ [Ev_jl_load_dynamic_library name JL_RTLD_DEFAULT 0;
                             Ev_jl_pathname_for_handle h])%list w).
Proof.
  unfold get_sysimage_path, call_frame, jl_load_dynamic_library,
    jl_pathname_for_handle, emit. simpl.
  rewrite <- app_assoc. by destruct w.
Qed.

(** Without a library name [init_julia] ends the process in [exit(1)]
    after [setup_args] and [jl_error]. *)
Lemma init_julia_unnamed (argc : Z) (a : ptr) (off : nat)
    (args : list string) (w : world) :
  JULIAC_PROGRAM_LIBNAME R = None →
  load w a = Some (CArgv args) → live w a = true →
  ∃ w', init_julia P R argc (a, off) w = (Exit 1, w') ∧
        trace w' = (trace w ++ [Ev_uv_setup_args argc a off;
                                Ev_libsupport_init;
                                Ev_jl_parse_opts (Stack (sp w)) (Stack (S (sp w)));
                                Ev_jl_error libname_error])%list ∧
        environ w' = environ w ∧ image_file w' = image_file w.
Proof.
  intros Hn Ha Hl.
  destruct (setup_args_run R argc a off args w Ha Hl)
    as (w1 & E1 & _ & He & Hi & Ht & _).
  exists (with_trace (trace w1 ++ [Ev_jl_error libname_error])%list w1).
  split.
  - unfold init_julia, call_frame.
    rewrite (bind_ret _ _ _ _ _ E1), Hn, bind_run, get_sysimage_path_null.
    done.
  - simpl. rewrite Ht, <- app_assoc. done.
Qed.

(** With a library the loader finds at the string [s] in [p],
    [init_julia] returns: six calls leave the shim, the last one
    [julia_init] with [jl_options.image_file] set to [p]. *)
Lemma init_julia_run (argc : Z) (a : ptr) (off : nat) (args : list string)
    (name : string) (p : ptr) (s : string) (w : world) :
  let h := load_dynamic_library R name JL_RTLD_DEFAULT 0 in
  JULIAC_PROGRAM_LIBNAME R = Some name →
  pathname_for_handle R h = Some p →
  load_str w p = Some s → is_lit p = false → live w p = true →
  load w a = Some (CArgv args) → live w a = true →
  ∃ w', init_julia P R argc (a, off) w = (Ret (), w') ∧
        sp w' = sp w ∧ image_file w' = Some p ∧
        trace w' = (trace w ++ [Ev_uv_setup_args argc a off;
                                Ev_libsupport_init;
                                Ev_jl_parse_opts (Stack (sp w)) (Stack (S (sp w)));
                                Ev_jl_load_dynamic_library name JL_RTLD_DEFAULT 0;
                                Ev_jl_pathname_for_handle h;
                                Ev_julia_init JL_IMAGE_JULIA_HOME (Some p)
                                  (load_str w' p)])%list ∧
        getenv w' "JULIA_LOAD_PATH" = Some "@" ∧
        getenv w' "JULIA_DEPOT_PATH"
        = Some (truncate (PATH_MAX P + 2)
                  (dirname_string (dirname_string s) ++ "/")) ∧
        Stack (sp w) ∈ environ w'.
Proof.
  intros h Hn Hh Hs Hp Hlp Ha Hla.
  assert (Hpa : p ≠ a).
  { intros ->. unfold load_str in Hs. by rewrite Ha in Hs. }
  destruct (setup_args_run R argc a off args w Ha Hla)
    as (w1 & E1 & Hsp1 & _ & _ & Ht1 & _ & Hfr).
  set (w2 := with_trace
               (trace w1 ++ [Ev_jl_load_dynamic_library name JL_RTLD_DEFAULT 0;
                             Ev_jl_pathname_for_handle h])%list w1).
  assert (Hs2 : load_str w2 p = Some s).
  { unfold load_str in *. change (load w2 p) with (load w1 p).
    by rewrite Hfr. }
  destruct (set_depot_path_run P p s w2 Hs2 Hp)
    as (w3 & E3 & Hsp3 & Ht3 & _ & Hbuf & Henv).
  destruct (set_depot_path_env P p s w2 Hs2 Hp) as (w3' & E3' & HL & HD).
  assert (w3' = w3) as -> by congruence.
  set (w4 := with_image_file (Some p) w3).
  set (w5 := with_trace (trace w4 ++ [Ev_julia_init JL_IMAGE_JULIA_HOME
                                        (Some p) (load_str w4 p)])%list w4).
  exists (with_sp (sp w) w5). split.
  - unfold init_julia. apply call_frame_ret.
    rewrite (bind_ret _ _ _ _ _ E1), Hn.
    rewrite (bind_ret _ _ _ _ _ (get_sysimage_path_run name w1)).
    fold h. rewrite Hh.
    rewrite (bind_ret _ _ _ _ _ E3).
    rewrite (bind_ret _ _ w3 w4 ()) by done.
    done.
  - split; [done |]. split; [done |]. split.
    { change (load_str (with_sp (sp w) w5) p) with (load_str w4 p).
      change (trace (with_sp (sp w) w5))
        with (trace w3 ++ [Ev_julia_init JL_IMAGE_JULIA_HOME (Some p)
                             (load_str w4 p)])%list.
      rewrite Ht3.
      change (trace w2)
        with (trace w1 ++ [Ev_jl_load_dynamic_library name JL_RTLD_DEFAULT 0;
                           Ev_jl_pathname_for_handle h])%list.
      rewrite Ht1. rewrite <- !app_assoc. done. }
    split; [by rewrite <- HL; apply getenv_ext |].
    split; [by rewrite <- HD; apply getenv_ext |].
    change (Stack (sp w) ∈ environ w3). rewrite Henv.
    change (sp w2) with (sp w1). rewrite Hsp1.
    destruct (depot_entry_named P w3 (Stack (sp w2)) _ Hbuf) as [_ HbL].
    apply elem_of_add_other; [apply elem_of_add_self |].
    by rewrite <- Hsp1.
Qed.

Lemma shutdown_julia_run (retcode : Z) (w : world) :
  shutdown_julia retcode w
  = (Ret (), with_trace (trace w ++ [Ev_jl_atexit_hook retcode])%list w).
Proof. by destruct w. Qed.

End Init.

Section Dangling.

Variable P : platform.

Lemma set_depot_path_entries (p : ptr) (s : string) (w : world) :
  load_str w p = Some s → is_lit p = false →
  ∃ w', set_depot_path P (Some p) w = (Ret (), w') ∧ sp w' = sp w ∧
        Stack (sp w) ∈ environ w' ∧ Lit "JULIA_LOAD_PATH=@" ∈ environ w' ∧
        load_str w' (Stack (sp w))
        = Some (depot_entry P (CStr.dirname_string (CStr.dirname_string s))).
Proof.
  intros Hs Hp.
  destruct (set_depot_path_run P p s w Hs Hp)
    as (w' & E & Hsp & _ & _ & Hbuf & Henv).
  destruct (depot_entry_named P w' _ _ Hbuf) as [_ HbL].
  exists w'. split; [done |]. split; [done |]. rewrite Henv.
  split; [| split; [| done]].
  - apply elem_of_add_other; [apply elem_of_add_self | done].
  - apply elem_of_add_self.
Qed.

(** When [set_depot_path] has returned, the environment points into the
    frame it has left. *)
Lemma set_depot_path_dangles (p : ptr) (s : string) (w : world) :
  load_str w p = Some s → is_lit p = false →
  ∃ w', set_depot_path P (Some p) w = (Ret (), w') ∧
        env_storage_live w' = false.
Proof.
  intros Hs Hp.
  destruct (set_depot_path_entries p s w Hs Hp)
    as (w' & E & Hsp & Hin & _ & _).
  exists w'. split; [done |].
  destruct (env_storage_live w') eqn:F; [| done].
  unfold env_storage_live in F.
  apply list_elem_of_In in Hin.
  pose proof (proj1 (forallb_forall _ _) F _ Hin) as Hl.
  simpl in Hl. apply bool_decide_eq_true in Hl. lia.
Qed.

End Dangling.

Lemma atexit_calls_app (t t' : list event) :
  atexit_calls (t ++ t')%list = (atexit_calls t ++ atexit_calls t')%list.
Proof. apply omap_app. Qed.

Lemma julia_init_calls_app (t t' : list event) :
  julia_init_calls (t ++ t')%list
  = (julia_init_calls t ++ julia_init_calls t')%list.
Proof. apply List.filter_app. Qed.

(** * The claims *)

(** C1.  The claim: when [init_julia] has resolved its paths,
    [jl_options.image_file] is the path the loader answered and that string
    is never changed, in particular not by [set_depot_path].  Where
    [dirname] cuts its argument in place the code does change it: for the
    library at "/opt/app/lib/x86/image.so", [jl_options.image_file] is the
    pointer the loader answered, and the string there is "/opt/app/lib"
    when [julia_init] is called. *)
Theorem image_file_string_is_cut :
  let w := example_world image_path [] in
  let r := init_julia linux example_runtime 2 (Static 1, 0) w in
  load_str w (Static 0) = Some "/opt/app/lib/x86/image.so" ∧
  r.1 = Ret () ∧
  image_file r.2 = Some (Static 0) ∧
  load_str r.2 (Static 0) = Some "/opt/app/lib" ∧
  julia_init_calls (trace r.2)
  = [Ev_julia_init JL_IMAGE_JULIA_HOME (Some (Static 0)) (Some "/opt/app/lib")].
Proof. vm_compute. done. Qed.

(** With a [dirname] that answers from its own buffer the string is kept. *)
Example image_file_string_kept_without_cut :
  let w := example_world image_path [] in
  let r := init_julia darwin example_runtime 2 (Static 1, 0) w in
  r.1 = Ret () ∧ image_file r.2 = Some (Static 0) ∧
  load_str r.2 (Static 0) = Some "/opt/app/lib/x86/image.so".
Proof. vm_compute. done. Qed.

(** C2, as stated, fails: for "/opt/app/lib/x86/image.so" the directory
    two levels up is not "/opt/app", and the value of the depot variable is
    not "/opt/app/". *)
Lemma example_depot_is_not_opt_app :
  let w := example_world image_path [] in
  let r := depot_dir linux (Some (Static 0)) w in
  let w' := (set_depot_path linux (Some (Static 0)) w).2 in
  ¬ (∃ d, r.1 = Ret d ∧ load_str r.2 d = Some "/opt/app") ∧
  getenv w' "JULIA_DEPOT_PATH" ≠ Some "/opt/app/".
Proof.
  split.
  - intros (d & E & H). vm_compute in E. injection E as <-.
    vm_compute in H. discriminate.
  - vm_compute. discriminate.
Qed.

(** C2, amended.  For the path "/opt/app/lib/x86/image.so",
    [dirname(dirname(path))] is "/opt/app/lib" and the value of
    JULIA_DEPOT_PATH is exactly "/opt/app/lib/". *)
Theorem example_depot_is_opt_app_lib (P : platform) (p : ptr) (w : world) :
  11 ≤ PATH_MAX P →
  load_str w p = Some "/opt/app/lib/x86/image.so" → is_lit p = false →
  (∃ d w1, depot_dir P (Some p) w = (Ret d, w1) ∧
           load_str w1 d = Some "/opt/app/lib") ∧
  (∃ w', set_depot_path P (Some p) w = (Ret (), w') ∧
         getenv w' "JULIA_DEPOT_PATH" = Some "/opt/app/lib/").
Proof.
  intros HP Hs Hp. split.
  - destruct (depot_dir_run P p image_path w) as (d & w1 & E & H & _).
    { split; [done | by left]. }
    exists d, w1. split; [exact E | exact H].
  - destruct (set_depot_path_env P p image_path w Hs Hp) as (w' & E & _ & H).
    exists w'. split; [done |]. rewrite H. f_equal.
    apply (truncate_all _ "/opt/app/lib/"). simpl. lia.
Qed.

Lemma example_depot_is_opt_app_lib_witness :
  (∃ d w1, depot_dir linux (Some (Static 0)) (example_world image_path [])
           = (Ret d, w1) ∧
           load_str w1 d = Some "/opt/app/lib") ∧
  (∃ w', set_depot_path linux (Some (Static 0)) (example_world image_path [])
         = (Ret (), w') ∧
         getenv w' "JULIA_DEPOT_PATH" = Some "/opt/app/lib/").
Proof.
  apply (example_depot_is_opt_app_lib linux (Static 0)
           (example_world image_path [])).
  - simpl. lia.
  - reflexivity.
  - reflexivity.
Defined.

(** C3.  [dirname(dirname(path))] takes the file name and the directory
    that holds the file off the path, whatever the components are and
    without looking at anything but the string: for the path of the
    components [cs], then [d], then [f], the answer is the directory of
    [cs].  That directory does not end in a separator (unless it is the
    root); the separator comes with the "/" of the format, in the value of
    JULIA_DEPOT_PATH. *)
Theorem depot_dir_two_levels_up (P : platform) (cs : list string)
    (d f : string) (p : ptr) (w : world) :
  forallb Layout.component (cs ++ [d; f])%list = true →
  load_str w p = Some (Layout.abs_path (cs ++ [d; f])%list) →
  is_lit p = false →
  String.length (Layout.directory cs) ≤ PATH_MAX P + 1 →
  (∃ q w1, depot_dir P (Some p) w = (Ret q, w1) ∧
           load_str w1 q = Some (Layout.directory cs)) ∧
  CStr.ends_with_slash (Layout.directory cs)
  = match cs with [] => true | _ => false end ∧
  (∃ w', set_depot_path P (Some p) w = (Ret (), w') ∧
         getenv w' "JULIA_DEPOT_PATH" = Some (Layout.directory cs ++ "/")).
Proof.
  intros Hcs Hs Hp Hlen.
  pose proof (dirname_twice cs d f Hcs) as HD.
  split; [| split].
  - destruct (depot_dir_run P p _ w (conj Hs (or_introl Hp)))
      as (q & w1 & E & H & _).
    exists q, w1. by rewrite <- HD.
  - destruct cs as [|c cs']; [done |].
    apply directory_no_trailing_slash; [| done].
    rewrite forallb_app in Hcs. by apply andb_prop in Hcs as [? _].
  - destruct (set_depot_path_env P p _ w Hs Hp) as (w' & E & _ & H).
    exists w'. split; [done |]. rewrite H, HD. f_equal.
    apply truncate_all. rewrite length_append. simpl. lia.
Qed.

Lemma depot_dir_two_levels_up_witness :
  (∃ q w1, depot_dir linux (Some (Static 0)) (example_world image_path [])
           = (Ret q, w1) ∧
           load_str w1 q = Some (Layout.directory ["opt"; "app"; "lib"])) ∧
  CStr.ends_with_slash (Layout.directory ["opt"; "app"; "lib"]) = false ∧
  (∃ w', set_depot_path linux (Some (Static 0)) (example_world image_path [])
         = (Ret (), w') ∧
         getenv w' "JULIA_DEPOT_PATH"
         = Some (Layout.directory ["opt"; "app"; "lib"] ++ "/")).
Proof.
  apply (depot_dir_two_levels_up linux ["opt"; "app"; "lib"] "x86" "image.so"
           (Static 0) (example_world image_path [])).
  - reflexivity.
  - reflexivity.
  - reflexivity.
  - simpl. lia.
Defined.

(** C4, as stated, fails: the keys are not DEPOT_PATH and LOAD_PATH.  After
    [set_depot_path] neither variable is defined; the two entries of the
    environment define JULIA_DEPOT_PATH and JULIA_LOAD_PATH. *)
Lemma keys_are_not_depot_path_load_path :
  let w := example_world image_path [] in
  let w' := (set_depot_path linux (Some (Static 0)) w).2 in
  getenv w' "DEPOT_PATH" = None ∧ getenv w' "LOAD_PATH" = None ∧
  environ_names w' = [Some "JULIA_DEPOT_PATH"; Some "JULIA_LOAD_PATH"].
Proof. vm_compute. done. Qed.

(** C4, amended.  [set_depot_path] writes the variables JULIA_DEPOT_PATH
    and JULIA_LOAD_PATH and no other: the value of JULIA_DEPOT_PATH is
    [dirname(dirname(path))] followed by "/" (for a directory of at most
    PATH_MAX + 1 characters, which the buffer holds), the value of
    JULIA_LOAD_PATH is the fixed string "@". *)
Theorem set_depot_path_julia_variables (P : platform) (p : ptr) (s : string)
    (w : world) :
  load_str w p = Some s → is_lit p = false →
  String.length (CStr.dirname_string (CStr.dirname_string s)) ≤ PATH_MAX P + 1 →
  ∃ w', set_depot_path P (Some p) w = (Ret (), w') ∧
        getenv w' "JULIA_DEPOT_PATH"
        = Some (CStr.dirname_string (CStr.dirname_string s) ++ "/") ∧
        getenv w' "JULIA_LOAD_PATH" = Some "@" ∧
        only_changes ["JULIA_DEPOT_PATH"; "JULIA_LOAD_PATH"] w w'.
Proof.
  intros Hs Hp Hlen.
  destruct (set_depot_path_env P p s w Hs Hp) as (w' & E & HL & HD).
  exists w'. split; [done |]. split; [| split; [done |]].
  - rewrite HD. f_equal. apply truncate_all.
    rewrite length_append. simpl. lia.
  - intros name Hn Hnot.
    apply (set_depot_path_other P p s name w w'); try done.
    + intros ->. apply Hnot. set_solver.
    + intros ->. apply Hnot. set_solver.
Qed.

Lemma set_depot_path_julia_variables_witness :
  ∃ w', set_depot_path linux (Some (Static 0))
          (example_world image_path [Lit "HOME=/root"]) = (Ret (), w') ∧
        getenv w' "JULIA_DEPOT_PATH"
        = Some (CStr.dirname_string (CStr.dirname_string image_path) ++ "/") ∧
        getenv w' "JULIA_LOAD_PATH" = Some "@" ∧
        only_changes ["JULIA_DEPOT_PATH"; "JULIA_LOAD_PATH"]
          (example_world image_path [Lit "HOME=/root"]) w'.
Proof.
  apply (set_depot_path_julia_variables linux (Static 0) image_path
           (example_world image_path [Lit "HOME=/root"])).
  - reflexivity.
  - reflexivity.
  - simpl. lia.
Defined.

(** C5.  Without a library name (the macro is NULL) [init_julia] reports
    through [jl_error] and ends the process in [exit(1)]: [julia_init] is
    not called, the loader is not asked, the environment and
    [jl_options.image_file] are as they were. *)
Theorem init_without_libname_exits (P : platform) (R : runtime) (argc : Z)
    (a : ptr) (off : nat) (args : list string) (w : world) :
  JULIAC_PROGRAM_LIBNAME R = None →
  load w a = Some (CArgv args) → live w a = true →
  ∃ w', init_julia P R argc (a, off) w = (Exit 1, w') ∧
        trace w' = (trace w ++ [Ev_uv_setup_args argc a off;
                                Ev_libsupport_init;
                                Ev_jl_parse_opts (Stack (sp w)) (Stack (S (sp w)));
                                Ev_jl_error libname_error])%list ∧
        julia_init_calls (trace w') = julia_init_calls (trace w) ∧
        environ w' = environ w ∧ image_file w' = image_file w.
Proof.
  intros Hn Ha Hl.
  destruct (init_julia_unnamed P R argc a off args w Hn Ha Hl)
    as (w' & E & Ht & He & Hi).
  exists w'. split; [done |]. split; [done |]. split; [| done].
  rewrite Ht, julia_init_calls_app. simpl. by rewrite app_nil_r.
Qed.

Lemma init_without_libname_exits_witness :
  ∃ w', init_julia linux unnamed_runtime 2 (Static 1, 0)
          (example_world image_path []) = (Exit 1, w') ∧
        trace w' = [Ev_uv_setup_args 2 (Static 1) 0;
                    Ev_libsupport_init;
                    Ev_jl_parse_opts (Stack 0) (Stack 1);
                    Ev_jl_error libname_error] ∧
        julia_init_calls (trace w') = [] ∧
        environ w' = [] ∧ image_file w' = None.
Proof.
  apply (init_without_libname_exits linux unnamed_runtime 2 (Static 1) 0
           ["app"; "--flag"] (example_world image_path [])).
  - reflexivity.
  - reflexivity.
  - reflexivity.
Defined.

(** C6.  Whatever the environment holds before, in two runs from any two
    states, the value of JULIA_LOAD_PATH after [set_depot_path] is the same
    fixed string "@". *)
Theorem load_path_overrides (P : platform) (p1 p2 : ptr) (s1 s2 : string)
    (w1 w2 : world) :
  load_str w1 p1 = Some s1 → is_lit p1 = false →
  load_str w2 p2 = Some s2 → is_lit p2 = false →
  ∃ w1' w2', set_depot_path P (Some p1) w1 = (Ret (), w1') ∧
             set_depot_path P (Some p2) w2 = (Ret (), w2') ∧
             getenv w1' "JULIA_LOAD_PATH" = Some "@" ∧
             getenv w2' "JULIA_LOAD_PATH" = Some "@".
Proof.
  intros Hs1 Hp1 Hs2 Hp2.
  destruct (set_depot_path_env P p1 s1 w1 Hs1 Hp1) as (w1' & E1 & H1 & _).
  destruct (set_depot_path_env P p2 s2 w2 Hs2 Hp2) as (w2' & E2 & H2 & _).
  by exists w1', w2'.
Qed.

Lemma load_path_overrides_witness :
  ∃ w1' w2',
    set_depot_path linux (Some (Static 0))
      (example_world image_path [Lit "JULIA_LOAD_PATH=/tmp/evil"])
    = (Ret (), w1') ∧
    set_depot_path linux (Some (Static 0))
      (example_world image_path [Lit "HOME=/root"; Lit "JULIA_LOAD_PATH=@stdlib"])
    = (Ret (), w2') ∧
    getenv w1' "JULIA_LOAD_PATH" = Some "@" ∧
    getenv w2' "JULIA_LOAD_PATH" = Some "@".
Proof.
  apply (load_path_overrides linux (Static 0) (Static 0) image_path image_path);
    reflexivity.
Defined.

(** C7.  The claim: [set_depot_path] called twice with the same input
    leaves the environment values the first call left.  Where [dirname]
    cuts in place the code does not: the first call cuts the string at the
    pointer it is given, so that the second call on the same pointer goes
    two more levels up.  For "/opt/app/lib/x86/image.so" the value of
    JULIA_DEPOT_PATH is "/opt/app/lib/" after the first call and "/opt/"
    after the second.  (What holds there: JULIA_LOAD_PATH keeps its value
    and no entry is added.) *)
Theorem set_depot_path_twice_differs_in_place :
  let w := example_world image_path [] in
  let r1 := set_depot_path linux (Some (Static 0)) w in
  let r2 := set_depot_path linux (Some (Static 0)) r1.2 in
  r1.1 = Ret () ∧ r2.1 = Ret () ∧
  getenv r1.2 "JULIA_DEPOT_PATH" = Some "/opt/app/lib/" ∧
  getenv r2.2 "JULIA_DEPOT_PATH" = Some "/opt/" ∧
  getenv r2.2 "JULIA_DEPOT_PATH" ≠ getenv r1.2 "JULIA_DEPOT_PATH" ∧
  getenv r2.2 "JULIA_LOAD_PATH" = getenv r1.2 "JULIA_LOAD_PATH" ∧
  length (environ r2.2) = length (environ r1.2).
Proof. vm_compute. split_and!; done. Qed.



(** C8.  The claim: the storage of every variable the shim puts in the
    environment outlives the call that puts it.  The code gives [putenv] the
    automatic array [buf]: before [init_julia] every entry of the
    environment is in live storage; when it has returned, the entry of
    JULIA_DEPOT_PATH is the stack slot of a frame that is gone. *)
Theorem depot_entry_outlived_by_environ :
  let w := example_world image_path [Lit "HOME=/root"] in
  let r := init_julia linux example_runtime 2 (Static 1, 0) w in
  env_storage_live w = true ∧
  r.1 = Ret () ∧
  environ r.2 = [Lit "HOME=/root"; Stack 0; Lit "JULIA_LOAD_PATH=@"] ∧
  environ_names r.2
  = [Some "HOME"; Some "JULIA_DEPOT_PATH"; Some "JULIA_LOAD_PATH"] ∧
  sp r.2 = 0 ∧ live r.2 (Stack 0) = false ∧
  env_storage_live r.2 = false.
Proof. vm_compute. done. Qed.

(** C9.  [init_julia] followed by [shutdown_julia(n)] calls
    [jl_atexit_hook] once, with [n]. *)
Theorem shutdown_passes_retcode (P : platform) (R : runtime) (n argc : Z)
    (a : ptr) (off : nat) (args : list string) (name : string) (p : ptr)
    (s : string) (w : world) :
  JULIAC_PROGRAM_LIBNAME R = Some name →
  pathname_for_handle R (load_dynamic_library R name JL_RTLD_DEFAULT 0)
  = Some p →
  load_str w p = Some s → is_lit p = false → live w p = true →
  load w a = Some (CArgv args) → live w a = true →
  ∃ w1 w2, init_julia P R argc (a, off) w = (Ret (), w1) ∧
           shutdown_julia n w1 = (Ret (), w2) ∧
           trace w2 = (trace w1 ++ [Ev_jl_atexit_hook n])%list ∧
           atexit_calls (trace w2) = (atexit_calls (trace w) ++ [n])%list.
Proof.
  intros Hn Hh Hs Hp Hlp Ha Hla.
  destruct (init_julia_run P R argc a off args name p s w Hn Hh Hs Hp Hlp Ha Hla)
    as (w1 & E1 & _ & _ & Ht & _).
  exists w1, (with_trace (trace w1 ++ [Ev_jl_atexit_hook n])%list w1).
  split; [done |]. split; [apply shutdown_julia_run |]. split; [done |].
  simpl. rewrite Ht, !atexit_calls_app. simpl. by rewrite app_nil_r.
Qed.

Lemma shutdown_passes_retcode_witness :
  ∃ w1 w2, init_julia linux example_runtime 2 (Static 1, 0)
             (example_world image_path []) = (Ret (), w1) ∧
           shutdown_julia 3 w1 = (Ret (), w2) ∧
           trace w2 = (trace w1 ++ [Ev_jl_atexit_hook 3])%list ∧
           atexit_calls (trace w2) = [3%Z].
Proof.
  apply (shutdown_passes_retcode linux example_runtime 3 2 (Static 1) 0
           ["app"; "--flag"] "libapp" (Static 0) image_path
           (example_world image_path []));
    reflexivity.
Defined.

(** C10.  [setup_args] gives [jl_parse_opts] the addresses of its own two
    parameters, slots of its own frame; whatever the parser writes through
    them, every variable that was alive before the call, so [argc] and
    [argv] of any caller, holds what it held when [setup_args] has
    returned. *)
Theorem setup_args_keeps_callers_variables (R : runtime) (argc : Z) (a : ptr)
    (off : nat) (args : list string) (w : world) :
  load w a = Some (CArgv args) → live w a = true →
  ∃ w', setup_args R argc (a, off) w = (Ret (), w') ∧
        last (trace w')
        = Some (Ev_jl_parse_opts (Stack (sp w)) (Stack (S (sp w)))) ∧
        live w (Stack (sp w)) = false ∧ live w (Stack (S (sp w))) = false ∧
        sp w' = sp w ∧ variables_kept w w'.
Proof.
  intros Ha Hl.
  destruct (setup_args_run R argc a off args w Ha Hl)
    as (w' & E & Hsp & _ & _ & Ht & _ & Hfr).
  exists w'. split; [done |]. split.
  { rewrite Ht.
    change [Ev_uv_setup_args argc a off; Ev_libsupport_init;
            Ev_jl_parse_opts (Stack (sp w)) (Stack (S (sp w)))]
      with ([Ev_uv_setup_args argc a off; Ev_libsupport_init]
            ++ [Ev_jl_parse_opts (Stack (sp w)) (Stack (S (sp w)))])%list.
    rewrite app_assoc. apply last_snoc. }
  split; [simpl; apply bool_decide_eq_false; lia |].
  split; [simpl; apply bool_decide_eq_false; lia |].
  split; [done |].
  intros q c Hq Hc Hnot. rewrite Hfr; [done | | done].
  intros ->. rewrite Ha in Hc. injection Hc as <-. by eapply Hnot.
Qed.

Lemma setup_args_keeps_callers_variables_witness :
  ∃ w', setup_args example_runtime 2 (Static 1, 0) (host_world image_path)
        = (Ret (), w') ∧
        last (trace w') = Some (Ev_jl_parse_opts (Stack 2) (Stack 3)) ∧
        live (host_world image_path) (Stack 2) = false ∧
        live (host_world image_path) (Stack 3) = false ∧
        sp w' = 2 ∧ variables_kept (host_world image_path) w'.
Proof.
  apply (setup_args_keeps_callers_variables example_runtime 2 (Static 1) 0
           ["app"; "--flag"] (host_world image_path));
    reflexivity.
Defined.

(** ** Further runs *)

(** The second call on the pointer of the first, where [dirname] cuts in
    place: the string there is no longer the path, and the depot is two
    levels further up. *)
Example set_depot_path_twice_same_pointer :
  let w1 := (set_depot_path linux (Some (Static 0))
               (example_world image_path [])).2 in
  let w2 := (set_depot_path linux (Some (Static 0)) w1).2 in
  load_str w1 (Static 0) = Some "/opt/app/lib" ∧
  getenv w1 "JULIA_DEPOT_PATH" = Some "/opt/app/lib/" ∧
  getenv w2 "JULIA_DEPOT_PATH" = Some "/opt/" ∧
  length (environ w2) = length (environ w1).
Proof. vm_compute. done. Qed.

(** The parser of [example_runtime] consumes one argument: the slots of
    [setup_args] hold the rewritten values, the variables of the host's
    [main] hold their own. *)
Example setup_args_on_host :
  let w' := (setup_args example_runtime 2 (Static 1, 0)
               (host_world image_path)).2 in
  load w' (Stack 2) = Some (CInt 1) ∧
  load w' (Stack 3) = Some (CArgvPtr (Static 1) 1) ∧
  load w' (Stack 0) = Some (CInt 2) ∧
  load w' (Stack 1) = Some (CArgvPtr (Static 1) 0).
Proof. vm_compute. done. Qed.

(** The guard of [get_sysimage_path] is on NULL: with the empty string for
    a name the loader is asked and [init_julia] goes on. *)
Example init_with_empty_libname :
  let R := Runtime (Some "") (parse_opts example_runtime)
             (load_dynamic_library example_runtime)
             (pathname_for_handle example_runtime) in
  let r := init_julia linux R 2 (Static 1, 0) (example_world image_path []) in
  r.1 = Ret () ∧ length (julia_init_calls (trace r.2)) = 1.
Proof. vm_compute. done. Qed.

(** In this model of the stack, where a later frame takes the slots of an
    earlier one slot by slot, a frame entered after [set_depot_path] takes
    the slot the environment still points to: JULIA_DEPOT_PATH is then not
    defined any more. *)
Example depot_entry_overwritten :
  let w1 := (set_depot_path linux (Some (Static 0))
               (example_world image_path [])).2 in
  let w2 := (setup_args example_runtime 2 (Static 1, 0) w1).2 in
  getenv w1 "JULIA_DEPOT_PATH" = Some "/opt/app/lib/" ∧
  environ w2 = environ w1 ∧
  getenv w2 "JULIA_DEPOT_PATH" = None.
Proof. vm_compute. done. Qed.

(** * Further properties of the shim *)

(** ** What [set_depot_path] does to storage *)

Section DepotStorage.

Import CStr.

Variable P : platform.

Lemma length_truncate (n : nat) (s : string) :
  String.length (truncate n s) ≤ n.
Proof.
  revert s. induction n as [|n IH]; intros [|c s]; simpl; try lia.
  specialize (IH s). lia.
Qed.

Lemma truncate_app_le (n : nat) (a b : string) :
  n ≤ String.length a → truncate n (a ++ b) = truncate n a.
Proof.
  revert a. induction n as [|n IH]; intros [|c a] H; simpl in *; try done.
  - lia.
  - rewrite IH; [done | lia].
Qed.

Lemma length_truncate_le (n : nat) (a : string) :
  n ≤ String.length a → String.length (truncate n a) = n.
Proof.
  revert a. induction n as [|n IH]; intros [|c a] H; simpl in *; try done.
  - lia.
  - rewrite IH; [done | lia].
Qed.

(** The two variables, read off the buffer and the list of entries. *)
Lemma configured_getenv (w w' : world) (D : string) :
  load_str w' (Stack (sp w)) = Some (depot_entry P D) →
  environ w'
  = add_to_environ w' "JULIA_LOAD_PATH" (Lit "JULIA_LOAD_PATH=@")
      (add_to_environ w' "JULIA_DEPOT_PATH" (Stack (sp w)) (environ w)) →
  getenv w' "JULIA_LOAD_PATH" = Some "@" ∧
  getenv w' "JULIA_DEPOT_PATH" = Some (truncate (PATH_MAX P + 2) (D ++ "/")).
Proof.
  intros Hbuf Henv.
  destruct (depot_entry_named P w' _ _ Hbuf) as [HD HL]. split.
  - apply (getenv_found w' "JULIA_LOAD_PATH" (Lit "JULIA_LOAD_PATH=@"));
      [| done].
    rewrite Henv. by apply find_add_same.
  - apply (getenv_found w' "JULIA_DEPOT_PATH" (Stack (sp w))).
    + rewrite Henv, find_add_other.
      * by apply find_add_same.
      * done.
      * intros e. by apply entry_named_other.
    + rewrite Hbuf. f_equal. apply depot_entry_eq.
Qed.

(** [set_depot_path] after its [dirname] calls, for any argument: the only
    slot written after them is the one of [buf]. *)
Lemma set_depot_path_after_dirname (path : option ptr) (D : string) (d : ptr)
    (w w1 : world) :
  depot_dir P path (with_sp (S (sp w)) w) = (Ret d, w1) →
  load_str w1 d = Some D → same_regs (with_sp (S (sp w)) w) w1 →
  ∃ w', set_depot_path P path w = (Ret (), w') ∧
        sp w' = sp w ∧ trace w' = trace w ∧ image_file w' = image_file w ∧
        load_str w' (Stack (sp w)) = Some (depot_entry P D) ∧
        environ w'
        = add_to_environ w' "JULIA_LOAD_PATH" (Lit "JULIA_LOAD_PATH=@")
            (add_to_environ w' "JULIA_DEPOT_PATH" (Stack (sp w)) (environ w)) ∧
        (∀ q, q ≠ Stack (sp w) → load w' q = load w1 q).
Proof.
  intros E1 Hd R1.
  set (w0 := with_sp (S (sp w)) w) in *.
  set (w2 := with_stack (<[sp w := CStr (depot_entry P D)]> (stack w1)) w1).
  assert (E2 : snprintf (Stack (sp w)) (PATH_MAX P + 20)
                 "JULIA_DEPOT_PATH=" d "/" w1 = (Ret (), w2))
    by (by eapply snprintf_run).
  assert (Hbuf : load_str w2 (Stack (sp w)) = Some (depot_entry P D))
    by (unfold load_str; simpl; by rewrite lookup_insert_eq).
  set (env1 := add_to_environ w2 "JULIA_DEPOT_PATH" (Stack (sp w)) (environ w2)).
  set (w3 := with_environ env1 w2).
  assert (E3 : putenv (Stack (sp w)) w2 = (Ret (), w3))
    by (eapply putenv_run; [done | apply depot_entry_name]).
  set (env2 := add_to_environ w3 "JULIA_LOAD_PATH" (Lit "JULIA_LOAD_PATH=@") env1).
  set (w4 := with_environ env2 w3).
  assert (E4 : putenv (Lit "JULIA_LOAD_PATH=@") w3 = (Ret (), w4))
    by (by eapply putenv_run).
  exists (with_sp (sp w) w4). split.
  - unfold set_depot_path. apply call_frame_ret.
    rewrite (bind_ret _ _ w w0 (Stack (sp w))) by done.
    rewrite (bind_ret _ _ _ _ _ E1), (bind_ret _ _ _ _ _ E2).
    by rewrite (bind_ret _ _ _ _ _ E3).
  - destruct R1 as (R1 & R2 & R3 & R4).
    split; [done |]. split; [done |]. split; [done |]. split; [done |].
    split.
    + simpl. unfold env2, env1. simpl. rewrite R2. simpl.
      rewrite (add_to_environ_ext (with_sp (sp w) w4) w3) by done.
      f_equal. by apply add_to_environ_ext.
    + intros [t| |i|i] Hq; simpl; try done.
      rewrite lookup_insert_ne; [done | congruence].
Qed.

(** [dirname] where it cuts in place: the argument holds [kept s], nothing
    else is written. *)
Lemma dirname_cuts (p : ptr) (s : string) (w : world) :
  dirname_in_place P = true → cuttable w p s →
  ∃ d w', dirname P (Some p) w = (Ret d, w') ∧
          cuttable w' d (dirname_string s) ∧ same_regs w w' ∧
          (∀ q, q ≠ p → load w' q = load w q) ∧
          load_str w' p = Some (kept s) ∧
          (d = p ∨ d = Lit "." ∧ w' = w).
Proof.
  intros Hm [Hs Hp]. unfold dirname. rewrite Hm.
  rewrite (bind_ret _ _ _ _ _ (read_str_run _ _ _ Hs)).
  unfold dirname_string, kept.
  destruct (dirname_cut s) as [d|] eqn:E.
  - destruct Hp as [Hp|]; [| done].
    destruct (store_str_ok p s d w Hs Hp) as [w' Hw].
    exists p, w'.
    rewrite (bind_ret _ _ _ _ _ (write_run _ _ _ _ Hw)).
    split; [done |]. split; [| split; [| split; [| split]]].
    + split; [by eapply load_str_store | by left].
    + by apply store_regs in Hw.
    + intros q Hq. rewrite (load_store _ _ _ _ _ Hw). by rewrite decide_False.
    + by eapply load_str_store.
    + by left.
  - exists (Lit "."), w. split; [done |].
    split; [split; [done | by right] |]. split; [done |].
    split; [done |]. split; [done | by right].
Qed.

Lemma depot_dir_cuts (p : ptr) (s : string) (w : world) :
  dirname_in_place P = true → load_str w p = Some s → is_lit p = false →
  ∃ d w1, depot_dir P (Some p) w = (Ret d, w1) ∧
          load_str w1 d = Some (dirname_string (dirname_string s)) ∧
          same_regs w w1 ∧
          (∀ q, q ≠ p → load w1 q = load w q) ∧
          load_str w1 p = Some (kept (kept s)).
Proof.
  intros Hm Hs Hp.
  destruct (dirname_cuts p s w Hm (conj Hs (or_introl Hp)))
    as (d1 & w1 & E1 & H1 & R1 & F1 & K1 & Hd1).
  destruct (dirname_cuts d1 _ w1 Hm H1)
    as (d2 & w2 & E2 & [H2 _] & R2 & F2 & K2 & Hd2).
  exists d2, w2. unfold depot_dir.
  rewrite (bind_ret _ _ _ _ _ E1). split; [done |]. split; [done |].
  split.
  { destruct R1 as (? & ? & ? & ?), R2 as (? & ? & ? & ?).
    unfold same_regs. split_and!; congruence. }
  destruct Hd1 as [-> | [-> ->]].
  - split.
    + intros q Hq. by rewrite F2, F1.
    + destruct H1 as [H1 _]. rewrite K1 in H1. injection H1 as ->. done.
  - assert (Hk : kept s = s) by (rewrite Hs in K1; by injection K1).
    assert (w2 = w) as ->.
    { destruct Hd2 as [Hd2 | [_ ?]]; [| done]. subst d2.
      unfold dirname in E2. rewrite Hm in E2.
      by injection E2. }
    split; [done |]. by rewrite !Hk.
Qed.

(** [dirname] where it answers from its buffer: only the buffer is
    written. *)
Lemma depot_dir_copies (p : ptr) (s : string) (w : world) :
  dirname_in_place P = false → load_str w p = Some s →
  ∃ d w1, depot_dir P (Some p) w = (Ret d, w1) ∧
          load_str w1 d = Some (dirname_string (dirname_string s)) ∧
          same_regs w w1 ∧
          (∀ q, q ≠ DirnameBuf → load w1 q = load w q).
Proof.
  intros Hm Hs.
  exists DirnameBuf,
    (with_dirname_buf (dirname_string (dirname_string s))
       (with_dirname_buf (dirname_string s) w)).
  split.
  - unfold depot_dir, dirname. rewrite Hm.
    rewrite (bind_ret _ _ w (with_dirname_buf (dirname_string s) w) DirnameBuf).
    2:{ by rewrite (bind_ret _ _ _ _ _ (read_str_run _ _ _ Hs)). }
    by rewrite (bind_ret _ _ _ (with_dirname_buf (dirname_string s) w)
                  (dirname_string s)).
  - split; [done |]. split; [done |]. by intros [t| |i|i].
Qed.

(** The storage [set_depot_path] writes: the slot of [buf], and the
    argument or the buffer of [dirname]. *)
Lemma set_depot_path_storage (p : ptr) (s : string) (w : world) :
  load_str w p = Some s → is_lit p = false →
  ∃ w', set_depot_path P (Some p) w = (Ret (), w') ∧
        sp w' = sp w ∧
        load_str w' (Stack (sp w))
        = Some (depot_entry P (dirname_string (dirname_string s))) ∧
        environ w'
        = add_to_environ w' "JULIA_LOAD_PATH" (Lit "JULIA_LOAD_PATH=@")
            (add_to_environ w' "JULIA_DEPOT_PATH" (Stack (sp w)) (environ w)) ∧
        (∀ q, q ≠ p → q ≠ DirnameBuf → q ≠ Stack (sp w) →
              load w' q = load w q) ∧
        (p ≠ DirnameBuf → p ≠ Stack (sp w) →
         load_str w' p
         = Some (if dirname_in_place P then kept (kept s) else s)).
Proof.
  intros Hs Hp.
  set (w0 := with_sp (S (sp w)) w).
  assert (Hs0 : load_str w0 p = Some s) by done.
  destruct (dirname_in_place P) eqn:Hm.
  - destruct (depot_dir_cuts p s w0 Hm Hs0 Hp) as (d & w1 & E1 & Hd & R1 & F1 & K1).
    destruct (set_depot_path_after_dirname _ _ _ w w1 E1 Hd R1)
      as (w' & E & Hsp & _ & _ & Hbuf & Henv & F).
    exists w'. split_and!; try done.
    + intros q Hq _ Hb. rewrite F by done. by rewrite F1.
    + intros _ Hb. unfold load_str in *. by rewrite F.
  - destruct (depot_dir_copies p s w0 Hm Hs0) as (d & w1 & E1 & Hd & R1 & F1).
    destruct (set_depot_path_after_dirname _ _ _ w w1 E1 Hd R1)
      as (w' & E & Hsp & _ & _ & Hbuf & Henv & F).
    exists w'. split_and!; try done.
    + intros q _ Hq Hb. rewrite F by done. by rewrite F1.
    + intros Hq Hb. unfold load_str in *. rewrite F by done. by rewrite F1.
Qed.

End DepotStorage.

(** ** The environment, entry by entry *)

Section EnvironEntries.

Import CStr.

Lemma find_ext_in {A} (f g : A → bool) (l : list A) :
  (∀ x, x ∈ l → f x = g x) → List.find f l = List.find g l.
Proof.
  induction l as [|x l IH]; intros H; simpl; [done |].
  rewrite (H x) by set_solver. rewrite IH; [done |].
  intros y Hy. apply H. set_solver.
Qed.

Lemma find_elem_of {A} (f : A → bool) (l : list A) (x : A) :
  List.find f l = Some x → x ∈ l.
Proof. intros [H _]%find_some. by apply list_elem_of_In. Qed.

Lemma getenv_undefined (w : world) (name : string) :
  getenv w name = None → List.find (entry_named w name) (environ w) = None.
Proof.
  unfold getenv. destruct (List.find _ _) as [e|] eqn:E; [| done].
  apply find_some in E as [_ E]. unfold entry_named in E. simpl.
  by destruct (load_str w e).
Qed.

Lemma add_to_environ_absent (w : world) (name : string) (p : ptr)
    (env : list ptr) :
  List.find (entry_named w name) env = None →
  add_to_environ w name p env = (env ++ [p])%list.
Proof.
  induction env as [|e env IH]; simpl; [done |].
  destruct (entry_named w name e); [done |]. intros H. by rewrite IH.
Qed.

Lemma find_app_absent {A} (f : A → bool) (l l' : list A) :
  List.find f l = None → List.find f (l ++ l')%list = List.find f l'.
Proof.
  induction l as [|x l IH]; simpl; [done |].
  destruct (f x); [done | apply IH].
Qed.

(** Entries in live storage that are neither the argument nor the buffer
    of [dirname] read the same before and after [set_depot_path]. *)
Lemma entries_kept (w w' : world) (p e : ptr) :
  (∀ q, q ≠ p → q ≠ DirnameBuf → q ≠ Stack (sp w) → load w' q = load w q) →
  env_storage_live w = true → environ_apart w p = true →
  e ∈ environ w → load w' e = load w e.
Proof.
  intros F Hl Ha He. apply list_elem_of_In in He.
  pose proof (proj1 (forallb_forall _ _) Hl e He) as Hle.
  pose proof (proj1 (forallb_forall _ _) Ha e He) as Hae.
  apply andb_prop in Hae as [H1 H2].
  apply negb_true_iff, bool_decide_eq_false in H1.
  apply negb_true_iff, bool_decide_eq_false in H2.
  apply F; [done | done |].
  by apply (live_below w e (sp w)).
Qed.

End EnvironEntries.

(** ** [init_julia], step by step *)

Section InitSteps.

Variable P : platform.
Variable R : runtime.


(** [init_julia] from the states its two calls leave. *)
Lemma init_julia_steps (path : option ptr) (name : string) (argc : Z)
    (a : ptr) (off : nat) (w w1 w3 : world) :
  let h := load_dynamic_library R name JL_RTLD_DEFAULT 0 in
  JULIAC_PROGRAM_LIBNAME R = Some name →
  pathname_for_handle R h = path →
  setup_args R argc (a, off) w = (Ret (), w1) →
  set_depot_path P path
    (with_trace (trace w1 ++ [Ev_jl_load_dynamic_library name JL_RTLD_DEFAULT 0;
                              Ev_jl_pathname_for_handle h])%list w1)
  = (Ret (), w3) →
  init_julia P R argc (a, off) w
  = (Ret (),
     with_sp (sp w)
       (with_trace (trace w3 ++ [Ev_julia_init JL_IMAGE_JULIA_HOME path
                                   (path ≫= load_str w3)])%list
          (with_image_file path w3))).
Proof.
  intros h Hn Hh E1 E3.
  unfold init_julia. apply call_frame_ret.
  rewrite (bind_ret _ _ _ _ _ E1), Hn.
  rewrite (bind_ret _ _ _ _ _ (get_sysimage_path_run R name w1)).
  fold h. rewrite Hh.
  rewrite (bind_ret _ _ _ _ _ E3).
  rewrite (bind_ret _ _ w3 (with_image_file path w3) ()) by done.
  done.
Qed.

End InitSteps.

(** ** Properties of [set_depot_path] *)

(** X1.  Whatever the length of the path, the string [snprintf] leaves in
    [buf] is shorter than the array: [set_depot_path] returns and has
    written fewer than PATH_MAX + 20 characters. *)
Theorem depot_entry_within_buf (P : platform) (p : ptr) (s : string)
    (w : world) :
  load_str w p = Some s → is_lit p = false →
  ∃ w' e, set_depot_path P (Some p) w = (Ret (), w') ∧
          load_str w' (Stack (sp w)) = Some e ∧
          String.length e < PATH_MAX P + 20.
Proof.
  intros Hs Hp.
  destruct (set_depot_path_storage P p s w Hs Hp) as (w' & E & _ & Hbuf & _).
  eexists w', _. split; [done |]. split; [exact Hbuf |].
  unfold depot_entry.
  pose proof (length_truncate (PATH_MAX P + 20 - 1)
                ("JULIA_DEPOT_PATH="
                 ++ CStr.dirname_string (CStr.dirname_string s) ++ "/")).
  lia.
Qed.

Lemma depot_entry_within_buf_witness :
  ∃ w' e, set_depot_path linux (Some (Static 0)) (example_world long_path [])
          = (Ret (), w') ∧
          load_str w' (Stack (sp (example_world long_path []))) = Some e ∧
          String.length e < PATH_MAX linux + 20.
Proof.
  apply (depot_entry_within_buf linux (Static 0) long_path
           (example_world long_path [])).
  - reflexivity.
  - reflexivity.
Defined.

(** X2.  A depot directory of PATH_MAX + 2 characters or more is cut
    without notice: the call returns, and the value of JULIA_DEPOT_PATH is
    the first PATH_MAX + 2 characters of the directory, with no separator
    after them. *)
Theorem long_depot_is_cut (P : platform) (p : ptr) (s : string) (w : world) :
  load_str w p = Some s → is_lit p = false →
  PATH_MAX P + 2 ≤ String.length (CStr.dirname_string (CStr.dirname_string s)) →
  ∃ w' v, set_depot_path P (Some p) w = (Ret (), w') ∧
          getenv w' "JULIA_DEPOT_PATH" = Some v ∧
          v = CStr.truncate (PATH_MAX P + 2)
                (CStr.dirname_string (CStr.dirname_string s)) ∧
          String.length v = PATH_MAX P + 2.
Proof.
  intros Hs Hp Hlen.
  destruct (set_depot_path_env P p s w Hs Hp) as (w' & E & _ & HD).
  eexists w', _. split; [done |]. split; [exact HD |].
  rewrite truncate_app_le by done. split; [done |].
  by apply length_truncate_le.
Qed.

Lemma long_depot_is_cut_witness :
  ∃ w' v, set_depot_path linux (Some (Static 0)) (example_world long_path [])
          = (Ret (), w') ∧
          getenv w' "JULIA_DEPOT_PATH" = Some v ∧
          v = CStr.truncate (PATH_MAX linux + 2)
                (CStr.dirname_string (CStr.dirname_string long_path)) ∧
          String.length v = PATH_MAX linux + 2.
Proof.
  apply (long_depot_is_cut linux (Static 0) long_path
           (example_world long_path [])).
  - reflexivity.
  - reflexivity.
  - apply Nat.leb_le. vm_compute. reflexivity.
Defined.

(** X4.  A path without a separator (a bare file name) has no directory
    part: the depot is "." and the value of JULIA_DEPOT_PATH is "./".  The
    string is only read, so the call also accepts a literal. *)
Theorem bare_file_name_depot (P : platform) (p : ptr) (s : string)
    (w : world) :
  load_str w p = Some s → CStr.has_slash s = false →
  ∃ w', set_depot_path P (Some p) w = (Ret (), w') ∧
        getenv w' "JULIA_DEPOT_PATH" = Some "./" ∧
        getenv w' "JULIA_LOAD_PATH" = Some "@".
Proof.
  intros Hs Hno.
  assert (Hcut : CStr.dirname_cut s = None).
  { unfold CStr.dirname_cut, CStr.dirname_rev.
    pose proof (List.Forall_rev (has_slash_chars s Hno)) as Hall.
    destruct (rev (list_ascii_of_string s)) as [|c r] eqn:Er; [done |].
    inversion Hall as [|? ? Hc Hr]; subst.
    simpl CStr.drop_slashes. rewrite Hc.
    assert (Hd : ∀ l, Forall (λ c, CStr.is_slash c = false) l →
                      CStr.drop_component l = []).
    { induction 1 as [|x l Hx _ IH]; simpl; [done | by rewrite Hx]. }
    by rewrite (Hd (c :: r) Hall). }
  set (w0 := with_sp (S (sp w)) w).
  destruct (depot_dir_run P p s w0) as (d & w1 & E1 & Hd & R1).
  { split; [done | by right]. }
  assert (HD : CStr.dirname_string (CStr.dirname_string s) = ".").
  { unfold CStr.dirname_string at 2. by rewrite Hcut. }
  rewrite HD in Hd.
  destruct (set_depot_path_after_dirname P _ _ _ w w1 E1 Hd R1)
    as (w' & E & _ & _ & _ & Hbuf & Henv & _).
  destruct (configured_getenv P w w' "." Hbuf Henv) as [HL HDv].
  exists w'. split; [done |]. split; [| done].
  rewrite HDv. f_equal.
  apply (truncate_all _ "./"). simpl. lia.
Qed.

Lemma bare_file_name_depot_witness :
  ∃ w', set_depot_path linux (Some (Lit "image.so")) (example_world "" [])
        = (Ret (), w') ∧
        getenv w' "JULIA_DEPOT_PATH" = Some "./" ∧
        getenv w' "JULIA_LOAD_PATH" = Some "@".
Proof.
  apply (bare_file_name_depot linux (Lit "image.so") "image.so"
           (example_world "" [])).
  - reflexivity.
  - reflexivity.
Defined.

(** X5.  A library directly under the root has one level above it, not
    two: the depot is the root and the value of JULIA_DEPOT_PATH is "//". *)
Theorem file_under_root_depot (P : platform) (p : ptr) (f : string)
    (w : world) :
  Layout.component f = true →
  load_str w p = Some ("/" ++ f) → is_lit p = false →
  ∃ w', set_depot_path P (Some p) w = (Ret (), w') ∧
        getenv w' "JULIA_DEPOT_PATH" = Some "//".
Proof.
  intros Hf Hs Hp.
  destruct (set_depot_path_env P p _ w Hs Hp) as (w' & E & _ & HD).
  exists w'. split; [done |]. rewrite HD. f_equal.
  unfold CStr.dirname_string at 2. rewrite dirname_cut_root by done.
  apply (truncate_all _ "//"). simpl. lia.
Qed.

Lemma file_under_root_depot_witness :
  ∃ w', set_depot_path linux (Some (Static 0)) (example_world "/image.so" [])
        = (Ret (), w') ∧
        getenv w' "JULIA_DEPOT_PATH" = Some "//".
Proof.
  apply (file_under_root_depot linux (Static 0) "image.so"
           (example_world "/image.so" [])).
  - reflexivity.
  - reflexivity.
  - reflexivity.
Defined.

(** X10.  [set_depot_path] leaves the value of every other variable as it
    was, when the entries of the environment are in live storage and none
    of them is the path string or the buffer of [dirname]. *)
Theorem set_depot_path_keeps_other_values (P : platform) (p : ptr)
    (s : string) (w : world) :
  load_str w p = Some s → is_lit p = false →
  env_storage_live w = true → environ_apart w p = true →
  ∃ w', set_depot_path P (Some p) w = (Ret (), w') ∧
        other_values_kept ["JULIA_DEPOT_PATH"; "JULIA_LOAD_PATH"] w w'.
Proof.
  intros Hs Hp Hl Ha.
  destruct (set_depot_path_storage P p s w Hs Hp)
    as (w' & E & _ & _ & _ & F & _).
  exists w'. split; [done |].
  intros name Hn Hnot. unfold getenv.
  rewrite (set_depot_path_other P p s name w w' Hs Hp E Hn)
    by (intros ->; apply Hnot; set_solver).
  assert (Hent : ∀ e, e ∈ environ w → load_str w' e = load_str w e).
  { intros e He. unfold load_str.
    by rewrite (entries_kept w w' p e F Hl Ha He). }
  rewrite (find_ext_in (entry_named w' name) (entry_named w name)).
  2:{ intros e He. unfold entry_named. by rewrite Hent. }
  destruct (List.find (entry_named w name) (environ w)) as [e|] eqn:Ef;
    [| done].
  simpl. by rewrite (Hent e (find_elem_of _ _ _ Ef)).
Qed.

Lemma set_depot_path_keeps_other_values_witness :
  ∃ w', set_depot_path linux (Some (Static 0))
          (example_world image_path [Lit "HOME=/root"; Lit "LANG=C"])
        = (Ret (), w') ∧
        other_values_kept ["JULIA_DEPOT_PATH"; "JULIA_LOAD_PATH"]
          (example_world image_path [Lit "HOME=/root"; Lit "LANG=C"]) w'.
Proof.
  apply (set_depot_path_keeps_other_values linux (Static 0) image_path
           (example_world image_path [Lit "HOME=/root"; Lit "LANG=C"]));
    reflexivity.
Defined.

(** X11.  When neither variable is defined before, [set_depot_path] adds
    exactly two entries at the end of the environment: the pointer to its
    own [buf], then the literal of JULIA_LOAD_PATH. *)
Theorem set_depot_path_appends (P : platform) (p : ptr) (s : string)
    (w : world) :
  load_str w p = Some s → is_lit p = false →
  env_storage_live w = true → environ_apart w p = true →
  getenv w "JULIA_DEPOT_PATH" = None → getenv w "JULIA_LOAD_PATH" = None →
  ∃ w', set_depot_path P (Some p) w = (Ret (), w') ∧
        environ w'
        = (environ w ++ [Stack (sp w); Lit "JULIA_LOAD_PATH=@"])%list.
Proof.
  intros Hs Hp Hl Ha HD HL.
  destruct (set_depot_path_storage P p s w Hs Hp)
    as (w' & E & _ & Hbuf & Henv & F & _).
  destruct (depot_entry_named P w' _ _ Hbuf) as [_ HbL].
  exists w'. split; [done |].
  assert (Hfind : ∀ name,
    List.find (entry_named w' name) (environ w)
    = List.find (entry_named w name) (environ w)).
  { intros name. apply find_ext_in. intros e He.
    unfold entry_named, load_str.
    by rewrite (entries_kept w w' p e F Hl Ha He). }
  rewrite Henv.
  rewrite (add_to_environ_absent w' "JULIA_DEPOT_PATH")
    by (rewrite Hfind; by apply getenv_undefined).
  rewrite add_to_environ_absent; [by rewrite <- app_assoc |].
  rewrite find_app_absent
    by (rewrite Hfind; by apply getenv_undefined).
  simpl. by rewrite HbL.
Qed.

Lemma set_depot_path_appends_witness :
  ∃ w', set_depot_path linux (Some (Static 0))
          (example_world image_path [Lit "HOME=/root"])
        = (Ret (), w') ∧
        environ w'
        = [Lit "HOME=/root"; Stack 0; Lit "JULIA_LOAD_PATH=@"].
Proof.
  apply (set_depot_path_appends linux (Static 0) image_path
           (example_world image_path [Lit "HOME=/root"]));
    reflexivity.
Defined.

(** X13.  Where [dirname] cuts in place, a second call on the same pointer
    starts from the directory the first call left there: for a path of the
    components [cs], [a], [b], [d], [f] the value of JULIA_DEPOT_PATH is the
    directory of [cs ++ [a; b]] after the first call and the directory of
    [cs] after the second. *)
Theorem set_depot_path_again_in_place (P : platform) (cs : list string)
    (a b d f : string) (p : ptr) (w : world) :
  dirname_in_place P = true →
  forallb Layout.component (cs ++ [a; b; d; f])%list = true →
  load_str w p = Some (Layout.abs_path (cs ++ [a; b; d; f])%list) →
  is_lit p = false → p ≠ DirnameBuf → live w p = true →
  String.length (Layout.abs_path (cs ++ [a; b])%list) ≤ PATH_MAX P + 1 →
  ∃ w1 w2, set_depot_path P (Some p) w = (Ret (), w1) ∧
           set_depot_path P (Some p) w1 = (Ret (), w2) ∧
           getenv w1 "JULIA_DEPOT_PATH"
           = Some (Layout.abs_path (cs ++ [a; b])%list ++ "/") ∧
           getenv w2 "JULIA_DEPOT_PATH" = Some (Layout.directory cs ++ "/").
Proof.
  intros Hm Hall Hs Hp Hnb Hlive Hlen.
  assert (Hall1 : forallb Layout.component ((cs ++ [a; b]) ++ [d; f])%list = true)
    by (by rewrite <- app_assoc).
  assert (Hall2 : forallb Layout.component (cs ++ [a; b])%list = true).
  { rewrite forallb_app in Hall1. by apply andb_prop in Hall1 as [? _]. }
  assert (Hs1 : load_str w p
                = Some (Layout.abs_path ((cs ++ [a; b]) ++ [d; f])%list))
    by (by rewrite <- app_assoc).
  pose proof (dirname_twice _ d f Hall1) as HD1.
  assert (Hdir : Layout.directory (cs ++ [a; b])%list
                 = Layout.abs_path (cs ++ [a; b])%list) by (by destruct cs).
  rewrite Hdir in HD1.
  pose proof (dirname_twice cs a b Hall2) as HD2.
  assert (Hk : kept (kept (Layout.abs_path ((cs ++ [a; b]) ++ [d; f])%list))
               = Layout.abs_path (cs ++ [a; b])%list).
  { rewrite forallb_app in Hall1. apply andb_prop in Hall1 as [_ Hdf].
    simpl in Hdf. apply andb_prop in Hdf as [Hd Hf].
    apply andb_prop in Hf as [Hf _].
    unfold kept at 2. rewrite dirname_cut_file by done.
    change (kept (Layout.abs_path ((cs ++ [a; b]) ++ [d])%list)
            = Layout.abs_path (cs ++ [a; b])%list).
    unfold kept. rewrite dirname_cut_parent by done. exact Hdir. }
  destruct (set_depot_path_env P p _ w Hs1 Hp) as (w1 & E1 & _ & HDv1).
  destruct (set_depot_path_storage P p _ w Hs1 Hp)
    as (w1' & E1' & Hsp1 & _ & _ & _ & K1).
  assert (w1' = w1) as -> by congruence.
  rewrite Hm, Hk in K1.
  assert (Hs2 : load_str w1 p = Some (Layout.abs_path (cs ++ [a; b])%list)).
  { apply K1; [done |]. by apply (live_below w p (sp w)). }
  destruct (set_depot_path_env P p _ w1 Hs2 Hp) as (w2 & E2 & _ & HDv2).
  exists w1, w2. split; [done |]. split; [done |]. split.
  - rewrite HDv1, HD1. f_equal. apply truncate_all.
    rewrite length_append. simpl. lia.
  - rewrite HDv2, HD2. f_equal. apply truncate_all.
    rewrite length_append. simpl.
    assert (String.length (Layout.directory cs)
            ≤ String.length (Layout.abs_path (cs ++ [a; b])%list)); [| lia].
    rewrite abs_path_app, length_append.
    destruct cs; simpl; lia.
Qed.

Lemma set_depot_path_again_in_place_witness :
  ∃ w1 w2, set_depot_path linux (Some (Static 0))
             (example_world "/opt/app/lib/x86/image.so" []) = (Ret (), w1) ∧
           set_depot_path linux (Some (Static 0)) w1 = (Ret (), w2) ∧
           getenv w1 "JULIA_DEPOT_PATH"
           = Some (Layout.abs_path ["opt"; "app"; "lib"] ++ "/") ∧
           getenv w2 "JULIA_DEPOT_PATH" = Some (Layout.directory ["opt"] ++ "/").
Proof.
  apply (set_depot_path_again_in_place linux ["opt"] "app" "lib" "x86"
           "image.so" (Static 0) (example_world "/opt/app/lib/x86/image.so" [])).
  - reflexivity.
  - reflexivity.
  - reflexivity.
  - reflexivity.
  - discriminate.
  - reflexivity.
  - simpl. lia.
Defined.

(** ** Properties of [setup_args] and [init_julia] *)

(** X6.  The argument vector is shared with the caller: [uv_setup_args]
    is called first, with the caller's [argc] and [argv]; when [setup_args]
    has returned the vector holds what the parser left in it; the
    environment and [jl_options.image_file] are untouched. *)
Theorem setup_args_shares_vector (R : runtime) (argc : Z) (a : ptr)
    (off : nat) (args : list string) (w : world) :
  load w a = Some (CArgv args) → live w a = true →
  ∃ w', setup_args R argc (a, off) w = (Ret (), w') ∧
        load w' a = Some (CArgv (parse_opts R argc off args).2) ∧
        trace w' = (trace w ++ [Ev_uv_setup_args argc a off;
                                Ev_libsupport_init;
                                Ev_jl_parse_opts (Stack (sp w)) (Stack (S (sp w)))])%list ∧
        environ w' = environ w ∧ image_file w' = image_file w.
Proof.
  intros Ha Hl.
  destruct (setup_args_run R argc a off args w Ha Hl)
    as (w' & E & _ & He & Hi & Ht & Hv & _).
  by exists w'.
Qed.

Lemma setup_args_shares_vector_witness :
  ∃ w', setup_args
          (Runtime None (λ argc off args, (argc - 1, S off, rev args)%Z)
             (λ _ _ _, 0%Z) (λ _, None))
          2 (Static 1, 0) (host_world image_path) = (Ret (), w') ∧
        load w' (Static 1) = Some (CArgv ["--flag"; "app"]) ∧
        trace w' = [Ev_uv_setup_args 2 (Static 1) 0;
                    Ev_libsupport_init;
                    Ev_jl_parse_opts (Stack 2) (Stack 3)] ∧
        environ w' = [] ∧ image_file w' = None.
Proof.
  apply (setup_args_shares_vector
           (Runtime None (λ argc off args, (argc - 1, S off, rev args)%Z)
              (λ _ _ _, 0%Z) (λ _, None))
           2 (Static 1) 0 ["app"; "--flag"] (host_world image_path));
    reflexivity.
Defined.

Section InitProperties.

Variable P : platform.
Variable R : runtime.

(** The string [julia_init] finds at [jl_options.image_file]. *)
Lemma init_julia_image (argc : Z) (a : ptr) (off : nat) (args : list string)
    (name : string) (p : ptr) (s : string) (w : world) :
  JULIAC_PROGRAM_LIBNAME R = Some name →
  pathname_for_handle R (load_dynamic_library R name JL_RTLD_DEFAULT 0)
  = Some p →
  load_str w p = Some s → is_lit p = false → p ≠ DirnameBuf →
  live w p = true →
  load w a = Some (CArgv args) → live w a = true →
  let img := if dirname_in_place P then kept (kept s) else s in
  ∃ w', init_julia P R argc (a, off) w = (Ret (), w') ∧
        image_file w' = Some p ∧ load_str w' p = Some img ∧
        julia_init_calls (trace w')
        = (julia_init_calls (trace w)
           ++ [Ev_julia_init JL_IMAGE_JULIA_HOME (Some p) (Some img)])%list.
Proof.
  intros Hn Hh Hs Hp Hnb Hlp Ha Hla img.
  assert (Hpa : p ≠ a).
  { intros ->. unfold load_str in Hs. by rewrite Ha in Hs. }
  destruct (setup_args_run R argc a off args w Ha Hla)
    as (w1 & E1 & Hsp1 & _ & _ & Ht1 & _ & Hfr).
  set (h := load_dynamic_library R name JL_RTLD_DEFAULT 0) in *.
  set (w2 := with_trace
               (trace w1 ++ [Ev_jl_load_dynamic_library name JL_RTLD_DEFAULT 0;
                             Ev_jl_pathname_for_handle h])%list w1).
  assert (Hs2 : load_str w2 p = Some s).
  { unfold load_str in *. change (load w2 p) with (load w1 p).
    by rewrite Hfr. }
  destruct (set_depot_path_storage P p s w2 Hs2 Hp)
    as (w3 & E3 & _ & _ & _ & _ & K).
  destruct (set_depot_path_run P p s w2 Hs2 Hp)
    as (w3' & E3' & _ & Ht3 & _).
  assert (w3' = w3) as -> by congruence.
  assert (Himg : load_str w3 p = Some img).
  { apply K; [done |]. change (sp w2) with (sp w1). rewrite Hsp1.
    by apply (live_below w p (sp w)). }
  eexists. split; [by apply (init_julia_steps P R (Some p) name argc a off w w1 w3) |].
  split; [done |]. split; [exact Himg |].
  simpl trace. simpl mbind. rewrite Himg, Ht3.
  change (trace w2)
    with (trace w1 ++ [Ev_jl_load_dynamic_library name JL_RTLD_DEFAULT 0;
                       Ev_jl_pathname_for_handle h])%list.
  rewrite Ht1, !julia_init_calls_app. simpl. by rewrite !app_nil_r.
Qed.

End InitProperties.

(** X7.  The calls of a run of [init_julia] that returns, in order:
    [uv_setup_args], [libsupport_init], [jl_parse_opts], the loader asked
    for the library with [JL_RTLD_DEFAULT] and without throwing, the path
    asked for the handle the loader answered, and last, once,
    [julia_init(JL_IMAGE_JULIA_HOME)], with [jl_options.image_file] the
    pointer the loader answered. *)
Theorem init_julia_calls_in_order (P : platform) (R : runtime) (argc : Z)
    (a : ptr) (off : nat) (args : list string) (name : string) (p : ptr)
    (s : string) (w : world) :
  JULIAC_PROGRAM_LIBNAME R = Some name →
  pathname_for_handle R (load_dynamic_library R name JL_RTLD_DEFAULT 0)
  = Some p →
  load_str w p = Some s → is_lit p = false → live w p = true →
  load w a = Some (CArgv args) → live w a = true →
  ∃ w' img, init_julia P R argc (a, off) w = (Ret (), w') ∧
    image_file w' = Some p ∧
    trace w'
    = (trace w
       ++ [Ev_uv_setup_args argc a off;
           Ev_libsupport_init;
           Ev_jl_parse_opts (Stack (sp w)) (Stack (S (sp w)));
           Ev_jl_load_dynamic_library name JL_RTLD_DEFAULT 0;
           Ev_jl_pathname_for_handle
             (load_dynamic_library R name JL_RTLD_DEFAULT 0);
           Ev_julia_init JL_IMAGE_JULIA_HOME (Some p) img])%list.
Proof.
  intros Hn Hh Hs Hp Hlp Ha Hla.
  destruct (init_julia_run P R argc a off args name p s w Hn Hh Hs Hp Hlp Ha Hla)
    as (w' & E & _ & Hi & Ht & _).
  by exists w', (load_str w' p).
Qed.

Lemma init_julia_calls_in_order_witness :
  ∃ w' img, init_julia darwin example_runtime 2 (Static 1, 0)
              (example_world image_path []) = (Ret (), w') ∧
    image_file w' = Some (Static 0) ∧
    trace w'
    = [Ev_uv_setup_args 2 (Static 1) 0;
       Ev_libsupport_init;
       Ev_jl_parse_opts (Stack 0) (Stack 1);
       Ev_jl_load_dynamic_library "libapp" JL_RTLD_DEFAULT 0;
       Ev_jl_pathname_for_handle 7;
       Ev_julia_init JL_IMAGE_JULIA_HOME (Some (Static 0)) img].
Proof.
  apply (init_julia_calls_in_order darwin example_runtime 2 (Static 1) 0
           ["app"; "--flag"] "libapp" (Static 0) image_path
           (example_world image_path []));
    reflexivity.
Defined.

(** X8.  Where [dirname] does not cut its argument, [julia_init] is
    called with [jl_options.image_file] pointing to the very path string
    the loader answered. *)
Theorem image_file_names_path_without_cut (P : platform) (R : runtime)
    (argc : Z) (a : ptr) (off : nat) (args : list string) (name : string)
    (p : ptr) (s : string) (w : world) :
  dirname_in_place P = false →
  JULIAC_PROGRAM_LIBNAME R = Some name →
  pathname_for_handle R (load_dynamic_library R name JL_RTLD_DEFAULT 0)
  = Some p →
  load_str w p = Some s → is_lit p = false → p ≠ DirnameBuf →
  live w p = true →
  load w a = Some (CArgv args) → live w a = true →
  ∃ w', init_julia P R argc (a, off) w = (Ret (), w') ∧
        image_file w' = Some p ∧ load_str w' p = Some s ∧
        julia_init_calls (trace w')
        = (julia_init_calls (trace w)
           ++ [Ev_julia_init JL_IMAGE_JULIA_HOME (Some p) (Some s)])%list.
Proof.
  intros Hm Hn Hh Hs Hp Hnb Hlp Ha Hla.
  pose proof (init_julia_image P R argc a off args name p s w
                Hn Hh Hs Hp Hnb Hlp Ha Hla) as H.
  by rewrite Hm in H.
Qed.

Lemma image_file_names_path_without_cut_witness :
  ∃ w', init_julia darwin example_runtime 2 (Static 1, 0)
          (example_world image_path []) = (Ret (), w') ∧
        image_file w' = Some (Static 0) ∧
        load_str w' (Static 0) = Some image_path ∧
        julia_init_calls (trace w')
        = [Ev_julia_init JL_IMAGE_JULIA_HOME (Some (Static 0))
             (Some image_path)].
Proof.
  apply (image_file_names_path_without_cut darwin example_runtime 2
           (Static 1) 0 ["app"; "--flag"] "libapp" (Static 0) image_path
           (example_world image_path []));
    try reflexivity.
  discriminate.
Defined.

(** X9.  Where [dirname] cuts in place, for every library at the path of
    the components [cs], [d], [f], the string [julia_init] finds at
    [jl_options.image_file] is the depot directory, the directory of
    [cs]. *)
Theorem image_file_names_depot_with_cut (P : platform) (R : runtime)
    (argc : Z) (a : ptr) (off : nat) (args : list string) (name : string)
    (p : ptr) (cs : list string) (d f : string) (w : world) :
  dirname_in_place P = true →
  JULIAC_PROGRAM_LIBNAME R = Some name →
  pathname_for_handle R (load_dynamic_library R name JL_RTLD_DEFAULT 0)
  = Some p →
  forallb Layout.component (cs ++ [d; f])%list = true →
  load_str w p = Some (Layout.abs_path (cs ++ [d; f])%list) →
  is_lit p = false → p ≠ DirnameBuf → live w p = true →
  load w a = Some (CArgv args) → live w a = true →
  ∃ w', init_julia P R argc (a, off) w = (Ret (), w') ∧
        image_file w' = Some p ∧
        load_str w' p = Some (Layout.directory cs) ∧
        julia_init_calls (trace w')
        = (julia_init_calls (trace w)
           ++ [Ev_julia_init JL_IMAGE_JULIA_HOME (Some p)
                 (Some (Layout.directory cs))])%list.
Proof.
  intros Hm Hn Hh Hall Hs Hp Hnb Hlp Ha Hla.
  pose proof (init_julia_image P R argc a off args name p _ w
                Hn Hh Hs Hp Hnb Hlp Ha Hla) as H.
  rewrite Hm in H.
  replace (kept (kept (Layout.abs_path (cs ++ [d; f])%list)))
    with (Layout.directory cs) in H; [done |].
  rewrite forallb_app in Hall. apply andb_prop in Hall as [Hcs Hdf].
  simpl in Hdf. apply andb_prop in Hdf as [Hd Hf].
  apply andb_prop in Hf as [Hf _].
  unfold kept at 2. rewrite dirname_cut_file by done.
  change (Layout.directory cs = kept (Layout.abs_path (cs ++ [d])%list)).
  unfold kept. by rewrite dirname_cut_parent.
Qed.

Lemma image_file_names_depot_with_cut_witness :
  ∃ w', init_julia linux example_runtime 2 (Static 1, 0)
          (example_world image_path []) = (Ret (), w') ∧
        image_file w' = Some (Static 0) ∧
        load_str w' (Static 0) = Some (Layout.directory ["opt"; "app"; "lib"]) ∧
        julia_init_calls (trace w')
        = [Ev_julia_init JL_IMAGE_JULIA_HOME (Some (Static 0))
             (Some (Layout.directory ["opt"; "app"; "lib"]))].
Proof.
  apply (image_file_names_depot_with_cut linux example_runtime 2
           (Static 1) 0 ["app"; "--flag"] "libapp" (Static 0)
           ["opt"; "app"; "lib"] "x86" "image.so"
           (example_world image_path []));
    try reflexivity.
  discriminate.
Defined.



(** X12.  When the library name is missing, a host that calls
    [init_julia] and then [shutdown_julia] never reaches the second call:
    the process has ended with status 1 and [jl_atexit_hook] has not been
    called. *)
Theorem shutdown_not_reached_without_libname (P : platform) (R : runtime)
    (n argc : Z) (a : ptr) (off : nat) (args : list string) (w : world) :
  JULIAC_PROGRAM_LIBNAME R = None →
  load w a = Some (CArgv args) → live w a = true →
  ∃ w', (init_julia P R argc (a, off);; shutdown_julia n) w = (Exit 1, w') ∧
        atexit_calls (trace w') = atexit_calls (trace w).
Proof.
  intros Hn Ha Hl.
  destruct (init_julia_unnamed P R argc a off args w Hn Ha Hl)
    as (w' & E & Ht & _).
  exists w'. split.
  - by rewrite bind_run, E.
  - rewrite Ht, atexit_calls_app. simpl. by rewrite app_nil_r.
Qed.

Lemma shutdown_not_reached_without_libname_witness :
  ∃ w', (init_julia linux unnamed_runtime 2 (Static 1, 0);; shutdown_julia 0)
          (example_world image_path []) = (Exit 1, w') ∧
        atexit_calls (trace w') = [].
Proof.
  apply (shutdown_not_reached_without_libname linux unnamed_runtime 0 2
           (Static 1) 0 ["app"; "--flag"] (example_world image_path []));
    reflexivity.
Defined.

Lemma set_depot_path_dangles_witness :
  ∃ w', set_depot_path darwin (Some (Static 0))
          (example_world image_path [Lit "HOME=/root"]) = (Ret (), w') ∧
        env_storage_live w' = false.
Proof.
  apply (set_depot_path_dangles darwin (Static 0) image_path
           (example_world image_path [Lit "HOME=/root"]));
    reflexivity.
Defined.


